(** * mesos-consul: the registration engine of [mesos/register.go]

    A shallow embedding of [RegisterHosts], [registerHost], [registerTask],
    [buildRegisterTaskTags] and [agentTags], together with the properties
    the specification states about them.

    Conventions.
    - Go [string] is [string]; Go [int] is [Z] (register.go does no
      arithmetic on integers, it only stores and prints them).
    - A Go slice is a [list]; [append] is [++].  A service is recorded in the
      call log with the field values it has when the call is made.
    - Go [map[string]string] is [gmap string string].
    - The registry client is an interface of the program: it is a type class
      [Registry], and the code is polymorphic in the implementation.  The
      calls the code makes are observed through the instance [Traced], which
      wraps any implementation and logs every call.
    - Functions of the repository that register.go calls but that live in
      other files are either modelled from the specification (and marked so)
      or collected in the class [Externals]. *)

From Stdlib Require Import ZArith Ascii String DecimalString.
From Stdlib Require DecimalZ DecimalPos.
From stdpp Require Import gmap strings list fin_maps.

(** ** Go library functions *)

(** [strconv.Itoa], also the rendering of [%d] by [fmt.Sprintf]. *)
Definition strconv_Itoa (n : Z) : string :=
  NilZero.string_of_int (Z.to_int n).

(** [strings.Contains s substr], byte-wise. *)
Fixpoint strings_Contains (s substr : string) : bool :=
  if String.prefix substr s then true
  else match s with
       | EmptyString => false
       | String _ s' => strings_Contains s' substr
       end.

(** [strings.Split s sep] for a separator of one byte (register.go only
    splits on a comma).  The empty string splits into one empty field. *)
Fixpoint strings_Split (s : string) (sep : ascii) : list string :=
  match s with
  | EmptyString => [EmptyString]
  | String c s' =>
      if Ascii.eqb c sep then EmptyString :: strings_Split s' sep
      else match strings_Split s' sep with
           | [] => [String c EmptyString]
           | w :: ws => String c w :: ws
           end
  end.

Definition comma : ascii := ","%char.

(** [errors.New]. *)
Inductive error : Type := errors_New (msg : string).

(** ** Package [registry] *)

Module Check.
(** The fields of [registry.Check] that register.go assigns. *)
Record t : Type := { HTTP : string; Interval : string }.
End Check.

Module Service.
(** [registry.Service].  [Port] is 0 and [Check] is [None] (nil) when a
    struct literal leaves them out. *)
Record t : Type := {
  ID : string;
  Name : string;
  Port : Z;
  Address : string;
  Tags : list string;
  Check : option Check.t;
  Agent : string
}.
End Service.

(** The registry client, [registry.Registry].  Every method may change the
    client, so every method returns the client's next state. *)
Class Registry (R : Type) : Type := {
  CacheLookup : string -> R -> option Service.t * R;
  CacheMark : string -> R -> R;
  CacheDelete : string -> R -> R;
  Register : Service.t -> R -> R
}.

(** A call on the registry client. *)
Inductive Call : Type :=
| CallCacheLookup (id : string)
| CallCacheMark (id : string)
| CallCacheDelete (id : string)
| CallRegister (s : Service.t).

(** A registry client that logs the calls made on it, oldest first. *)
Record Traced (R : Type) : Type := mkTraced { inner : R; calls : list Call }.
Arguments mkTraced {R} _ _.
Arguments inner {R} _.
Arguments calls {R} _.

#[export] Instance Traced_Registry {R : Type} `{Registry R} : Registry (Traced R) := {
  CacheLookup id r :=
    let '(h, r') := CacheLookup id (inner r) in
    (h, mkTraced r' (calls r ++ [CallCacheLookup id]));
  CacheMark id r := mkTraced (CacheMark id (inner r)) (calls r ++ [CallCacheMark id]);
  CacheDelete id r := mkTraced (CacheDelete id (inner r)) (calls r ++ [CallCacheDelete id]);
  Register s r := mkTraced (Register s (inner r)) (calls r ++ [CallRegister s])
}.

(** Start logging on a client. *)
Definition fresh {R : Type} (r : R) : Traced R := mkTraced r [].

(** A registry client whose cache is a finite map from identifiers to
    services: the implementation the examples run on. *)
#[export] Instance MapRegistry : Registry (gmap string Service.t) := {
  CacheLookup id r := (r !! id, r);
  CacheMark id r := r;
  CacheDelete id r := delete id r;
  Register s r := <[Service.ID s := s]> r
}.

(** ** Package [state] *)

Module Label.
Record t : Type := { Key : string; Value : string }.
End Label.

(** Modelled from the spec: the label lookup behind [Task.Label] and
    [DiscoveryPort.Label], which is in package [state] and not part of the
    sources at hand.  Labels are an ordered list of key/value pairs whose keys
    need not be unique, and the first match of a key wins. *)
Fixpoint lookupLabel (ls : list Label.t) (key : string) : option string :=
  match ls with
  | [] => None
  | l :: ls' =>
      if String.eqb (Label.Key l) key then Some (Label.Value l)
      else lookupLabel ls' key
  end.

Module DiscoveryPort.
Record t : Type := { Name : string; Number : Z; Labels : list Label.t }.

(** Modelled from the spec: [DiscoveryPort.Label], which returns the value
    of the port-level label, and the empty string when the port has no such
    label. *)
Definition Label (p : t) (key : string) : string :=
  default EmptyString (lookupLabel (Labels p) key).
End DiscoveryPort.

Module Ports.
Record t : Type := { DiscoveryPorts : list DiscoveryPort.t }.
End Ports.

Module DiscoveryInfo.
Record t : Type := { Name : string; Ports : Ports.t }.
End DiscoveryInfo.

Module Task.
(** The fields of [state.Task] that register.go reads. *)
Record t : Type := {
  ID : string;
  Name : string;
  Labels : list Label.t;
  DiscoveryInfo : DiscoveryInfo.t
}.

(** Modelled from the spec: [Task.Label], which returns the value of the
    first label with the given key, or an error ([None]) when the task
    carries no label with that key. *)
Definition Label (t : t) (key : string) : option string :=
  lookupLabel (Labels t) key.
End Task.

Module PID.
Record t : Type := { Host : string; Port : string }.
End PID.

Module Slave.
Record t : Type := { ID : string; Hostname : string; PID : PID.t }.
End Slave.

Module State.
Record t : Type := { Slaves : list Slave.t }.
End State.

(** ** Package [mesos] *)

Module MesosHost.
(** A control-plane node as [getMasters] returns it. *)
Record t : Type := {
  Ip : string;
  Port : Z;
  PortString : string;
  IsLeader : bool
}.
End MesosHost.

Module CheckVar.
(** The context handed to [GetCheck]; a field a literal leaves out is the
    empty string. *)
Record t : Type := { Host : string; Port : string }.
End CheckVar.

Module Mesos.
(** The fields of [Mesos] that register.go uses.  [TaskPrivilege] is the
    allow-list checker, seen through its method [Allowed]. *)
Record t : Type := {
  ServiceIdPrefix : string;
  ServiceName : string;
  Separator : string;
  ServiceTags : list string;
  IpOrder : list string;
  taskTag : gmap string (list string);
  Agents : gmap string string;
  TaskPrivilege : string -> bool
}.

(** [m.Agents = a]. *)
Definition setAgents (a : gmap string string) (m : t) : t :=
  {| ServiceIdPrefix := ServiceIdPrefix m;
     ServiceName := ServiceName m;
     Separator := Separator m;
     ServiceTags := ServiceTags m;
     IpOrder := IpOrder m;
     taskTag := taskTag m;
     Agents := a;
     TaskPrivilege := TaskPrivilege m |}.
End Mesos.

(** Functions register.go calls that are defined elsewhere and that the
    properties below do not look into: the code is verified for every
    choice of them. *)
Class Externals : Type := {
  (** [cleanName raw separator] *)
  cleanName : string -> string -> string;
  (** [toIP host] *)
  toIP : string -> string;
  (** [toPort p] *)
  toPort : string -> Z;
  (** [GetCheck t cv]; the check is a pointer and may be nil *)
  GetCheck : Task.t -> CheckVar.t -> option Check.t;
  (** [t.IP(order...)] *)
  Task_IP : Task.t -> list string -> string;
  (** [m.getMasters()] *)
  getMasters : Mesos.t -> list MesosHost.t;
  (** [strings.ToLower] *)
  strings_ToLower : string -> string
}.

(** Modelled from the spec: [sliceEq], which is not part of the sources at
    hand.  It compares two tag sequences as sets, whatever their order, and
    is meant for sequences without duplicates: the lengths must agree and
    every element of the first must occur in the second. *)
Definition sliceEq (a b : list string) : bool :=
  Nat.eqb (length a) (length b)
  && forallb (fun av => existsb (String.eqb av) b) a.

(** Modelled from the spec: [sliceContainsString], which is not part of the
    sources at hand: whether a tag is already present in a sequence. *)
Definition sliceContainsString (s : list string) (x : string) : bool :=
  existsb (String.eqb x) s.

Section Register.
Context {ext : Externals}.
Context {R : Type} `{!Registry R}.

(** [registerHost] *)
Definition registerHost (s : Service.t) (r : R) : R :=
  let '(h, r) := CacheLookup (Service.ID s) r in
  match h with
  | Some h =>
      if sliceEq (Service.Tags s) (Service.Tags h) then
        (* Tags are the same. Return *)
        CacheMark (Service.ID s) r
      else
        (* Delete cache entry. It will be re-created below *)
        Register s (CacheDelete (Service.ID s) r)
  | None => Register s r
  end.

(** [agentTags] *)
Definition agentTags (m : Mesos.t) (ts : list string) : list string :=
  if Nat.eqb (length (Mesos.ServiceTags m)) 0 then ts
  else
    foldl (fun rval tag =>
             foldl (fun rval t => rval ++ [t +:+ "." +:+ tag]) rval ts)
          [] (Mesos.ServiceTags m).

(** The service [RegisterHosts] builds for the worker [f] (lines 41-52). *)
Definition slaveService (m : Mesos.t) (f : Slave.t) : Service.t :=
  let agent := toIP (PID.Host (Slave.PID f)) in
  let port := toPort (PID.Port (Slave.PID f)) in
  {| Service.ID :=
       Mesos.ServiceIdPrefix m +:+ ":" +:+ Mesos.ServiceName m +:+ ":" +:+
       Slave.ID f +:+ ":" +:+ Slave.Hostname f;
     Service.Name := Mesos.ServiceName m;
     Service.Port := port;
     Service.Address := agent;
     Service.Agent := agent;
     Service.Tags := agentTags m ["agent"; "follower"];
     Service.Check :=
       Some {| Check.HTTP :=
                 "http://" +:+ agent +:+ ":" +:+ strconv_Itoa port +:+
                 "/slave(1)/health";
               Check.Interval := "10s" |} |}.

(** The service [RegisterHosts] builds for the control-plane node [ma]
    (lines 58-76). *)
Definition masterService (m : Mesos.t) (ma : MesosHost.t) : Service.t :=
  let tags :=
    if MesosHost.IsLeader ma then agentTags m ["leader"; "master"]
    else agentTags m ["master"] in
  {| Service.ID :=
       Mesos.ServiceIdPrefix m +:+ ":" +:+ Mesos.ServiceName m +:+ ":" +:+
       MesosHost.Ip ma +:+ ":" +:+ MesosHost.PortString ma;
     Service.Name := Mesos.ServiceName m;
     Service.Port := MesosHost.Port ma;
     Service.Address := MesosHost.Ip ma;
     Service.Agent := MesosHost.Ip ma;
     Service.Tags := tags;
     Service.Check :=
       Some {| Check.HTTP :=
                 "http://" +:+ MesosHost.Ip ma +:+ ":" +:+
                 strconv_Itoa (MesosHost.Port ma) +:+ "/master/health";
               Check.Interval := "10s" |} |}.

(** One turn of the loop over [s.Slaves]. *)
Definition registerSlave (st : Mesos.t * R) (f : Slave.t) : Mesos.t * R :=
  let '(m, r) := st in
  let agent := toIP (PID.Host (Slave.PID f)) in
  let m := Mesos.setAgents (<[Slave.ID f := agent]> (Mesos.Agents m)) m in
  (m, registerHost (slaveService m f) r).

(** [RegisterHosts]: the receiver [m] and the registry client are
    returned in their state after the call. *)
Definition RegisterHosts (m : Mesos.t) (s : State.t) (r : R) : Mesos.t * R :=
  let m := Mesos.setAgents ∅ m in
  (* Register slaves *)
  let '(m, r) := foldl registerSlave (m, r) (State.Slaves s) in
  (* Register masters *)
  let mas := getMasters m in
  (m, foldl (fun r ma => registerHost (masterService m ma) r) r mas).

(** [buildRegisterTaskTags].  [taskTag] is the rule table as the [range]
    loop visits it: a Go map is visited entry by entry in an order the
    language leaves open, so the sequence of visits is the argument (see
    [ranges]). *)
Definition buildRegisterTaskTags (taskName : string)
    (startingTags : list string) (taskTag : list (string * list string))
    : list string :=
  let result := startingTags in
  let tnameLower := strings_ToLower taskName in
  foldl (fun result '(pattern, taskTags) =>
           foldl (fun result tag =>
                    if strings_Contains tnameLower pattern then
                      if negb (sliceContainsString result tag)
                      then result ++ [tag]
                      else result
                    else result)
                 result taskTags)
        result taskTag.

(** The task name of [registerTask] (lines 111-116): the cleaned task
    identifier, or the cleaned value of the label [overrideTaskName]. *)
Definition taskName (m : Mesos.t) (t : Task.t) : string :=
  let tname := cleanName (Task.ID t) (Mesos.Separator m) in
  match Task.Label t "overrideTaskName" with
  | Some value => cleanName value (Mesos.Separator m)
  | None => tname
  end.

(** The tags of a discovery port (lines 137-142). *)
Definition portTags (discoveryPort : DiscoveryPort.t) : list string :=
  let pl := DiscoveryPort.Label discoveryPort "tags" in
  if negb (String.eqb pl EmptyString)
  then strings_Split (DiscoveryPort.Label discoveryPort "tags") comma
  else [].

(** The service registered for the first port (lines 147-158). *)
Definition primaryService (t : Task.t) (agent tname address : string)
    (tags : list string) (discoveryPort : DiscoveryPort.t) : Service.t :=
  let servicePort := strconv_Itoa (DiscoveryPort.Number discoveryPort) in
  {| Service.ID :=
       "mesos-consul:" +:+ agent +:+ ":" +:+ tname +:+ ":" +:+ servicePort;
     Service.Name := tname;
     Service.Port := toPort servicePort;
     Service.Address := address;
     Service.Tags := tags;
     Service.Check :=
       GetCheck t {| CheckVar.Host := toIP address;
                     CheckVar.Port := servicePort |};
     Service.Agent := toIP agent |}.

(** The service registered for a named port (lines 166-182).  The two
    [append]s may write behind the end of [tags] in its backing array; they
    never change [tags] itself, and the tags of the entry are as listed here
    when [Register] is called. *)
Definition namedService (m : Mesos.t) (t : Task.t)
    (agent tname address : string) (tags : list string)
    (discoveryPort : DiscoveryPort.t) : Service.t :=
  let serviceName := DiscoveryPort.Name discoveryPort in
  let servicePort := strconv_Itoa (DiscoveryPort.Number discoveryPort) in
  let porttags := portTags discoveryPort in
  let named_service :=
    cleanName (tname +:+ "-" +:+ DiscoveryPort.Name discoveryPort)
              (Mesos.Separator m) in
  {| Service.ID :=
       Mesos.ServiceIdPrefix m +:+ ":" +:+ agent +:+ ":" +:+ tname +:+ ":" +:+
       address +:+ ":" +:+ strconv_Itoa (DiscoveryPort.Number discoveryPort);
     Service.Name := named_service;
     Service.Port := toPort servicePort;
     Service.Address := address;
     Service.Tags := (tags ++ [serviceName]) ++ porttags;
     Service.Check :=
       GetCheck t {| CheckVar.Host := toIP address;
                     CheckVar.Port := servicePort |};
     Service.Agent := toIP agent |}.

(** The service registered when the discovery name is empty
    (lines 186-195). *)
Definition plainService (m : Mesos.t) (t : Task.t)
    (agent tname address : string) (tags : list string) : Service.t :=
  {| Service.ID :=
       Mesos.ServiceIdPrefix m +:+ ":" +:+ agent +:+ "-" +:+ tname +:+ ":" +:+
       address;
     Service.Name := tname;
     Service.Port := 0;
     Service.Address := address;
     Service.Tags := tags;
     Service.Check :=
       GetCheck t {| CheckVar.Host := toIP address;
                     CheckVar.Port := EmptyString |};
     Service.Agent := toIP agent |}.

(** The body of the loop over the discovery ports, for the port at
    index [key]. *)
Definition registerPort (m : Mesos.t) (t : Task.t)
    (agent tname address : string) (tags : list string)
    (key : nat) (discoveryPort : DiscoveryPort.t) (r : R) : R :=
  (* Register the first port of the array as the main service *)
  let r :=
    if Nat.eqb key 0
    then Register (primaryService t agent tname address tags discoveryPort) r
    else r in
  (* Register every named port as a service *)
  if negb (String.eqb (DiscoveryPort.Name discoveryPort) EmptyString)
  then Register (namedService m t agent tname address tags discoveryPort) r
  else r.

(** The loop over the discovery ports, from index [key] on. *)
Fixpoint rangePorts (m : Mesos.t) (t : Task.t)
    (agent tname address : string) (tags : list string)
    (key : nat) (ports : list DiscoveryPort.t) (r : R) : R :=
  match ports with
  | [] => r
  | discoveryPort :: ports' =>
      rangePorts m t agent tname address tags (S key) ports'
        (registerPort m t agent tname address tags key discoveryPort r)
  end.

(** The tags of [registerTask] before the branch on the discovery name
    (lines 123-129). *)
Definition baseTags (m : Mesos.t) (taskTag : list (string * list string))
    (t : Task.t) : list string :=
  let tags :=
    match Task.Label t "tags" with
    | Some l => strings_Split l comma
    | None => []
    end in
  buildRegisterTaskTags (taskName m t) tags taskTag.

(** [registerTask].  The result is the returned error ([None] is nil) and
    the registry client after the call.  [taskTag] is [m.taskTag] as the
    [range] loop of [buildRegisterTaskTags] visits it in this call:
    [ranges (Mesos.taskTag m) taskTag]. *)
Definition registerTask (m : Mesos.t) (taskTag : list (string * list string))
    (t : Task.t) (agent : string) (r : R) : option error * R :=
  match Task.Label t "consul" with
  | Some _ =>
      (* For migration purpose *)
      (Some (errors_New "Application with consul label"), r)
  | None =>
      let tname := taskName m t in
      if negb (Mesos.TaskPrivilege m tname) then
        (Some (errors_New "Task not allowed to be registered"), r)
      else
        let address := Task_IP t (Mesos.IpOrder m) in
        let tags := baseTags m taskTag t in
        if negb (String.eqb (DiscoveryInfo.Name (Task.DiscoveryInfo t))
                            EmptyString)
        then
          (None,
           rangePorts m t agent tname address tags 0
             (Ports.DiscoveryPorts
                (DiscoveryInfo.Ports (Task.DiscoveryInfo t))) r)
        else
          (None, Register (plainService m t agent tname address tags) r)
  end.

End Register.

(** The sequences in which a [range] loop may visit a Go map: every entry
    once, in any order. *)
Definition ranges {V : Type} (m : gmap string V) (order : list (string * V)) : Prop :=
  order ≡ₚ map_to_list m.

(** The calls a piece of code makes on a client, starting from client
    state [r]. *)
Definition callsOf {R : Type} (f : Traced R -> Traced R) (r : R) : list Call :=
  calls (f (fresh r)).

(** ** An instance for the examples *)

(** Lower case of an ASCII byte; other bytes are kept. *)
Definition asciiLower (c : ascii) : ascii :=
  let n := nat_of_ascii c in
  if (65 <=? n)%nat && (n <=? 90)%nat then ascii_of_nat (n + 32) else c.

Fixpoint mapBytes (f : ascii -> ascii) (s : string) : string :=
  match s with
  | EmptyString => EmptyString
  | String c s' => String (f c) (mapBytes f s')
  end.

(** Letters, digits and the dash are kept by the example [cleanName]. *)
Definition keptByte (c : ascii) : bool :=
  let n := nat_of_ascii c in
  ((48 <=? n)%nat && (n <=? 57)%nat) || ((65 <=? n)%nat && (n <=? 90)%nat)
  || ((97 <=? n)%nat && (n <=? 122)%nat) || (n =? 45)%nat.

Fixpoint replaceBytes (raw separator : string) : string :=
  match raw with
  | EmptyString => EmptyString
  | String c raw' =>
      (if keptByte c then String c EmptyString else separator)
      +:+ replaceBytes raw' separator
  end.

Definition parsePort (p : string) : Z :=
  match NilZero.int_of_string p with
  | Some d => Z.of_int d
  | None => 0
  end.

Definition exMasters : list MesosHost.t :=
  [ {| MesosHost.Ip := "10.0.0.1"; MesosHost.Port := 5050;
       MesosHost.PortString := "5050"; MesosHost.IsLeader := true |};
    {| MesosHost.Ip := "10.0.0.2"; MesosHost.Port := 5050;
       MesosHost.PortString := "5050"; MesosHost.IsLeader := false |} ].

(** Externals to run the code on: addresses are already numeric, every task
    resolves to 192.168.1.10, and the health check is an HTTP check on the
    host and port of the context. *)
Definition exExternals : Externals :=
  {| cleanName := replaceBytes;
     toIP := fun host => host;
     toPort := parsePort;
     GetCheck := fun _ cv =>
       Some {| Check.HTTP :=
                 "http://" +:+ CheckVar.Host cv +:+ ":" +:+ CheckVar.Port cv;
               Check.Interval := "10s" |};
     Task_IP := fun _ _ => "192.168.1.10";
     getMasters := fun _ => exMasters;
     strings_ToLower := mapBytes asciiLower |}.

Definition exMesos (prefix : string) (serviceTags : list string) : Mesos.t :=
  {| Mesos.ServiceIdPrefix := prefix;
     Mesos.ServiceName := "mesos";
     Mesos.Separator := "-";
     Mesos.ServiceTags := serviceTags;
     Mesos.IpOrder := ["netinfo"; "mesos"; "host"];
     Mesos.taskTag := {["web" := ["frontend"; "http"]]};
     Mesos.Agents := {["stale" := "10.9.9.9"]};
     Mesos.TaskPrivilege := fun name => negb (String.prefix "secret" name) |}.

(** A desired host entry and cached entries of the same identifier. *)
Definition exHost : Service.t :=
  {| Service.ID := "mesos-consul:mesos:agent-1:node1";
     Service.Name := "mesos";
     Service.Port := 5051;
     Service.Address := "10.0.0.5";
     Service.Tags := ["agent"; "follower"];
     Service.Check :=
       Some {| Check.HTTP := "http://10.0.0.5:5051/slave(1)/health";
               Check.Interval := "10s" |};
     Service.Agent := "10.0.0.5" |}.

Definition exCached (tags : list string) : Service.t :=
  {| Service.ID := Service.ID exHost;
     Service.Name := "mesos";
     Service.Port := 5051;
     Service.Address := "10.0.0.5";
     Service.Tags := tags;
     Service.Check := None;
     Service.Agent := "10.0.0.5" |}.

Definition exCache (tags : list string) : gmap string Service.t :=
  {[Service.ID exHost := exCached tags]}.

(** ** The calls of the loop over the discovery ports *)

(** The calls of one turn of the loop of [registerTask] over the discovery
    ports, for the port [p] at index [key]: the first port registers the
    primary service, a port with a name registers its named service. *)
Definition portCalls {ext : Externals} (m : Mesos.t) (t : Task.t)
    (agent tname address : string) (tags : list string)
    (key : nat) (p : DiscoveryPort.t) : list Call :=
  (if Nat.eqb key 0
   then [CallRegister (primaryService t agent tname address tags p)]
   else [])
  ++
  (if negb (String.eqb (DiscoveryPort.Name p) EmptyString)
   then [CallRegister (namedService m t agent tname address tags p)]
   else []).

(** The registry client after [registerTask], the error dropped. *)
Definition registerTaskOn {ext : Externals} {R : Type} `{!Registry R}
    (m : Mesos.t) (taskTag : list (string * list string)) (t : Task.t)
    (agent : string) (r : R) : R :=
  (registerTask m taskTag t agent r).2.

(** The receiver after [RegisterHosts]. *)
Definition RegisterHostsOn {ext : Externals} {R : Type} `{!Registry R}
    (m : Mesos.t) (s : State.t) (r : R) : R :=
  (RegisterHosts m s r).2.

(** ** Example tasks *)

Definition mkLabel (key value : string) : Label.t :=
  {| Label.Key := key; Label.Value := value |}.

Definition mkPort (name : string) (number : Z) (labels : list Label.t)
    : DiscoveryPort.t :=
  {| DiscoveryPort.Name := name; DiscoveryPort.Number := number;
     DiscoveryPort.Labels := labels |}.

Definition mkTask (id : string) (labels : list Label.t) (discoveryName : string)
    (ports : list DiscoveryPort.t) : Task.t :=
  {| Task.ID := id;
     Task.Name := id;
     Task.Labels := labels;
     Task.DiscoveryInfo :=
       {| DiscoveryInfo.Name := discoveryName;
          DiscoveryInfo.Ports := {| Ports.DiscoveryPorts := ports |} |} |}.

(** The task of [TestRegisterTask]: one label, of key consul and empty
    value, on the zero task. *)
Definition exTaskConsul : Task.t :=
  mkTask EmptyString [mkLabel "consul" EmptyString] EmptyString [].

(** A task the example allow-list refuses. *)
Definition exTaskSecret : Task.t :=
  mkTask "secret/db" [] EmptyString [].

(** A task without discovery information. *)
Definition exTaskPlain : Task.t :=
  mkTask "web/service-1" [mkLabel "tags" "blue,green"] EmptyString [].

(** A task with a discovery name and three ports, the second without a
    name. *)
Definition exTaskWeb : Task.t :=
  mkTask "web/service-1" [mkLabel "tags" "blue,green"] "web"
    [ mkPort "http" 8080 [mkLabel "tags" "public"];
      mkPort EmptyString 8081 [];
      mkPort "admin" 9090 [] ].

(** A task with a discovery name that declares no port. *)
Definition exTaskNoPorts : Task.t :=
  mkTask "web/service-1" [] "web" [].

(** A task without a discovery name that declares a named port. *)
Definition exTaskUnnamed : Task.t :=
  mkTask "web/service-1" [] EmptyString [mkPort "http" 8080 []].

(** The rule table of [exMesos] as a [range] loop visits it. *)
Definition exTaskTag : list (string * list string) :=
  [("web", ["frontend"; "http"])].

(** ** Example snapshot *)

Definition exSlave (id hostname host port : string) : Slave.t :=
  {| Slave.ID := id; Slave.Hostname := hostname;
     Slave.PID := {| PID.Host := host; PID.Port := port |} |}.

(** One worker, of identifier agent-1, at 10.0.0.5:5051. *)
Definition exState : State.t :=
  {| State.Slaves := [exSlave "agent-1" "node1" "10.0.0.5" "5051"] |}.

(** Two workers. *)
Definition exState2 : State.t :=
  {| State.Slaves := [exSlave "agent-1" "node1" "10.0.0.5" "5051";
                      exSlave "agent-2" "node2" "10.0.0.6" "5051"] |}.

(** ** The agent-address map *)

(** The address [RegisterHosts] records for the worker [f]. *)
Definition agentAddress {ext : Externals} (f : Slave.t) : string :=
  toIP (PID.Host (Slave.PID f)).

(** The map [RegisterHosts] builds from the workers, in their order: a
    later worker overwrites an earlier one of the same identifier. *)
Definition agentsOf {ext : Externals} (slaves : list Slave.t)
    : gmap string string :=
  foldl (fun a f => <[Slave.ID f := agentAddress f]> a) ∅ slaves.

(** ** Example rule table *)

(** Two rules, in the two orders a [range] loop may visit them. *)
Definition exVisit1 : list (string * list string) :=
  [("web", ["frontend"]); ("api", ["rest"])].

Definition exVisit2 : list (string * list string) :=
  [("api", ["rest"]); ("web", ["frontend"])].

Definition exRules : gmap string (list string) := list_to_map exVisit1.

(** ** Further examples *)

(** A port whose tags label has a blank after the comma. *)
Definition exPortBlank : DiscoveryPort.t :=
  mkPort "http" 8080 [mkLabel "tags" "public, beta"].

(** A task whose tags label is present and empty. *)
Definition exTaskEmptyTags : Task.t :=
  mkTask "web/service-1" [mkLabel "tags" EmptyString] EmptyString [].

(** ** Reading the call log *)

(** The identifiers looked up, in the order of the calls. *)
Definition lookupsOf (cs : list Call) : list string :=
  omap (fun c => match c with CallCacheLookup id => Some id | _ => None end) cs.

(** The services registered, in the order of the calls. *)
Definition registeredOf (cs : list Call) : list Service.t :=
  omap (fun c => match c with CallRegister s => Some s | _ => None end) cs.

(** The host entries of a snapshot in the order [RegisterHosts] builds
    them: the workers, then the control-plane nodes [getMasters] returns
    once the agent-address map is filled. *)
Definition hostEntries {ext : Externals} (m : Mesos.t) (s : State.t)
    : list Service.t :=
  map (slaveService m) (State.Slaves s) ++
  map (masterService m)
      (getMasters (Mesos.setAgents (agentsOf (State.Slaves s)) m)).

(** A string without a dot. *)
Definition dotFree (s : string) : Prop :=
  "."%char ∉ list_ascii_of_string s.

(** Two workers that report the same identifier. *)
Definition exStateDup : State.t :=
  {| State.Slaves := [exSlave "agent-1" "node1" "10.0.0.5" "5051";
                      exSlave "agent-1" "node9" "10.0.0.9" "5051";
                      exSlave "agent-2" "node2" "10.0.0.6" "5051"] |}.

(** ** The test file *)

(** [e.Error()] *)
Definition error_Error (e : error) : string :=
  match e with errors_New msg => msg end.

(** The zero value of [state.Task]. *)
Definition zeroTask : Task.t :=
  {| Task.ID := EmptyString;
     Task.Name := EmptyString;
     Task.Labels := [];
     Task.DiscoveryInfo :=
       {| DiscoveryInfo.Name := EmptyString;
          DiscoveryInfo.Ports := {| Ports.DiscoveryPorts := [] |} |} |}.

(** [t.Labels = ls] *)
Definition setLabels (ls : list Label.t) (t : Task.t) : Task.t :=
  {| Task.ID := Task.ID t;
     Task.Name := Task.Name t;
     Task.Labels := ls;
     Task.DiscoveryInfo := Task.DiscoveryInfo t |}.

(** [taskOpt]: a function that updates the task it is given; [None] is a
    panic. *)
Definition taskOpt : Type := Task.t -> option Task.t.

(** The loop in the closure of [labels], from index [i] on, with [ls] the
    labels so far: while [i < len(kvs)] it appends the label of key [kvs[i]]
    and value [kvs[i+1]] and adds 2 to [i].  An index out of range panics
    ([None]); so does running out of [fuel], which [len(kvs) + 1] turns
    never does. *)
Fixpoint labelsLoop (fuel i : nat) (kvs : list string) (ls : list Label.t)
    : option (list Label.t) :=
  match fuel with
  | O => None
  | S fuel' =>
      if (i <? length kvs)%nat then
        match kvs !! i, kvs !! (i + 1) with
        | Some k, Some v =>
            labelsLoop fuel' (i + 2) kvs
              (ls ++ [{| Label.Key := k; Label.Value := v |}])
        | _, _ => None
        end
      else Some ls
  end.

(** [labels]: panics on an odd number of strings, before it returns the
    option. *)
Definition labels (kvs : list string) : option taskOpt :=
  if negb (Nat.eqb (length kvs mod 2) 0) then None
  else
    Some (fun t =>
            match labelsLoop (S (length kvs)) 0 kvs (Task.Labels t) with
            | Some ls => Some (setLabels ls t)
            | None => None
            end).

(** [task]: the options applied in order to the zero task. *)
Definition task (opts : list taskOpt) : option Task.t :=
  foldl (fun t opt => match t with Some t => opt t | None => None end)
        (Some zeroTask) opts.

(** [TestRegisterTask], with the value of [new(Mesos)] as [m].  The result
    lists the messages of the calls of [t.Errorf]; [None] is a panic, and
    calling [Error] on a nil error is one. *)
Definition TestRegisterTask {ext : Externals} {R : Type} `{!Registry R}
    (m : Mesos.t) (taskTag : list (string * list string)) (r : R)
    : option (list string) :=
  match labels ["consul"; EmptyString] with
  | None => None
  | Some opt =>
      match task [opt] with
      | None => None
      | Some t0 =>
          let registerTests := [(t0, "Application with consul label")] in
          (foldl (fun st rt =>
                    match st with
                    | None => None
                    | Some (errs, r) =>
                        let '(actual, r) :=
                          registerTask m taskTag rt.1 EmptyString r in
                        match actual with
                        | None => None
                        | Some actual =>
                            if negb (String.eqb (error_Error actual) rt.2)
                            then Some (errs ++
                                       ["expected " +:+ rt.2 +:+ ", actual "
                                        +:+ error_Error actual], r)
                            else Some (errs, r)
                        end
                    end)
                 (Some ([], r)) registerTests) ≫= (fun st => Some st.1)
      end
  end.

(** The labels of the consecutive pairs of a list of strings. *)
Fixpoint labelPairs (kvs : list string) : list Label.t :=
  match kvs with
  | k :: v :: kvs' => {| Label.Key := k; Label.Value := v |} :: labelPairs kvs'
  | _ => []
  end.

(** * Properties *)

(** ** Logging does not change what the code does *)

Section Tracing.
Context {ext : Externals}.
Context {R : Type} `{!Registry R}.

Lemma registerHost_inner (s : Service.t) (r : Traced R) :
  inner (registerHost s r) = registerHost s (inner r).
Proof.
  unfold registerHost; cbn.
  destruct (CacheLookup (Service.ID s) (inner r)) as [[h|] r']; cbn; [|done].
  by destruct (sliceEq _ _).
Qed.

(** The calls of [registerHost], by the cached entry and the result of
    [sliceEq]. *)
Lemma registerHost_calls (s : Service.t) (r : Traced R) :
  calls (registerHost s r) =
  calls r ++
  CallCacheLookup (Service.ID s) ::
  match (CacheLookup (Service.ID s) (inner r)).1 with
  | None => [CallRegister s]
  | Some h =>
      if sliceEq (Service.Tags s) (Service.Tags h)
      then [CallCacheMark (Service.ID s)]
      else [CallCacheDelete (Service.ID s); CallRegister s]
  end.
Proof.
  unfold registerHost; cbn.
  destruct (CacheLookup (Service.ID s) (inner r)) as [[h|] r']; cbn.
  - destruct (sliceEq _ _); cbn; by rewrite <- ?app_assoc.
  - by rewrite <- app_assoc.
Qed.
End Tracing.

(** ** Tag sequences as sets *)

Lemma sliceContainsString_elem_of (s : list string) (x : string) :
  sliceContainsString s x = true <-> x ∈ s.
Proof.
  unfold sliceContainsString. rewrite existsb_exists. split.
  - intros (y & Hy & Heq). apply String.eqb_eq in Heq. subst y.
    by apply list_elem_of_In.
  - intros Hx. exists x. split; [by apply list_elem_of_In|apply String.eqb_refl].
Qed.

Lemma sliceContainsString_false (s : list string) (x : string) :
  sliceContainsString s x = false <-> x ∉ s.
Proof.
  rewrite <- sliceContainsString_elem_of.
  destruct (sliceContainsString s x); split; congruence.
Qed.

(** [sliceEq] succeeds exactly when the lengths agree and the first sequence
    is included in the second. *)
Lemma sliceEq_true (a b : list string) :
  sliceEq a b = true <-> length a = length b /\ (forall x, x ∈ a -> x ∈ b).
Proof.
  unfold sliceEq. rewrite andb_true_iff, Nat.eqb_eq, forallb_forall.
  apply and_iff_compat_l. split.
  - intros Hall x Hx. apply sliceContainsString_elem_of.
    apply Hall. by apply list_elem_of_In.
  - intros Hall x Hx. apply sliceContainsString_elem_of.
    apply Hall. by apply list_elem_of_In.
Qed.

(** On a first sequence without duplicates a success of [sliceEq] means the
    two sequences have the same elements. *)
Lemma sliceEq_true_same_elements (a b : list string) :
  NoDup a -> sliceEq a b = true -> forall x, x ∈ a <-> x ∈ b.
Proof.
  intros Ha [Hlen Hincl]%sliceEq_true.
  assert (a ≡ₚ b) as Hperm.
  { apply submseteq_length_Permutation; [by apply NoDup_submseteq|lia]. }
  intros x. by rewrite Hperm.
Qed.

(** On sequences without duplicates [sliceEq] decides equality as sets. *)
Lemma sliceEq_set_equal (a b : list string) :
  NoDup a -> NoDup b ->
  (sliceEq a b = true <-> forall x, x ∈ a <-> x ∈ b).
Proof.
  intros Ha Hb. split; [by apply sliceEq_true_same_elements|].
  intros Hsame. apply sliceEq_true. split.
  - apply Permutation_length. by apply NoDup_Permutation.
  - intros x. by rewrite Hsame.
Qed.

(** ** The cache-diff decision *)

(** C1. [registerHost] looks the desired entry up in the cache, and then:
    without a cached entry of that identifier it makes one [Register] call;
    with a cached entry whose tags are the desired tags as a set (neither
    side repeating a tag) it makes one [CacheMark] call and no [Register]
    call; with a cached entry whose tags differ as a set it makes one
    [CacheDelete] call followed by one [Register] call. *)
Theorem registerHost_cache_diff {R : Type} `{!Registry R}
    (s : Service.t) (r : R) :
  ((CacheLookup (Service.ID s) r).1 = None ->
   callsOf (registerHost s) r =
   [CallCacheLookup (Service.ID s); CallRegister s]) /\
  (forall h : Service.t,
     (CacheLookup (Service.ID s) r).1 = Some h ->
     NoDup (Service.Tags s) -> NoDup (Service.Tags h) ->
     (forall x, x ∈ Service.Tags s <-> x ∈ Service.Tags h) ->
     callsOf (registerHost s) r =
     [CallCacheLookup (Service.ID s); CallCacheMark (Service.ID s)]) /\
  (forall h : Service.t,
     (CacheLookup (Service.ID s) r).1 = Some h ->
     NoDup (Service.Tags s) ->
     ~ (forall x, x ∈ Service.Tags s <-> x ∈ Service.Tags h) ->
     callsOf (registerHost s) r =
     [CallCacheLookup (Service.ID s); CallCacheDelete (Service.ID s);
      CallRegister s]).
Proof.
  unfold callsOf. rewrite registerHost_calls. cbn.
  split; [|split].
  - by intros ->.
  - intros h -> Hs Hh Hsame.
    by rewrite (proj2 (sliceEq_set_equal _ _ Hs Hh) Hsame).
  - intros h -> Hs Hdiff.
    destruct (sliceEq (Service.Tags s) (Service.Tags h)) eqn:Heq; [|done].
    destruct Hdiff. by apply sliceEq_true_same_elements.
Qed.

Lemma registerHost_cache_diff_witness :
  callsOf (registerHost exHost) (∅ : gmap string Service.t) =
  [CallCacheLookup (Service.ID exHost); CallRegister exHost] /\
  callsOf (registerHost exHost) (exCache ["follower"; "agent"]) =
  [CallCacheLookup (Service.ID exHost); CallCacheMark (Service.ID exHost)] /\
  callsOf (registerHost exHost) (exCache ["agent"; "leader"]) =
  [CallCacheLookup (Service.ID exHost); CallCacheDelete (Service.ID exHost);
   CallRegister exHost].
Proof.
  split; [|split].
  - apply (proj1 (registerHost_cache_diff exHost ∅)). reflexivity.
  - apply (proj1 (proj2 (registerHost_cache_diff exHost _))
             (exCached ["follower"; "agent"])).
    + vm_compute; reflexivity.
    + compute_done.
    + compute_done.
    + intros x. rewrite !list_elem_of_In. cbn. tauto.
  - apply (proj2 (proj2 (registerHost_cache_diff exHost _))
             (exCached ["agent"; "leader"])).
    + vm_compute; reflexivity.
    + compute_done.
    + intros Hsame. generalize (proj1 (Hsame "follower")). compute_done.
Defined.

(** ** The calls of [registerTask] *)

Section TaskCalls.
Context {ext : Externals}.
Context {R : Type} `{!Registry R}.

Lemma registerPort_calls (m : Mesos.t) (t : Task.t)
    (agent tname address : string) (tags : list string)
    (key : nat) (p : DiscoveryPort.t) (r : Traced R) :
  calls (registerPort m t agent tname address tags key p r) =
  calls r ++ portCalls m t agent tname address tags key p.
Proof.
  unfold registerPort, portCalls.
  destruct (Nat.eqb key 0);
    destruct (negb (String.eqb (DiscoveryPort.Name p) EmptyString)); cbn;
    by rewrite <- ?app_assoc, ?app_nil_r.
Qed.

Lemma rangePorts_calls (m : Mesos.t) (t : Task.t)
    (agent tname address : string) (tags : list string)
    (ports : list DiscoveryPort.t) :
  forall (key : nat) (r : Traced R),
    calls (rangePorts m t agent tname address tags key ports r) =
    calls r ++
    concat (imap (fun k => portCalls m t agent tname address tags (key + k))
                 ports).
Proof.
  induction ports as [|p ports IH]; intros key r; cbn [rangePorts].
  - cbn. by rewrite app_nil_r.
  - rewrite IH, registerPort_calls, imap_cons. cbn [concat].
    rewrite Nat.add_0_r, <- app_assoc. do 3 f_equal.
    apply imap_ext. intros k q _. cbn. by rewrite Nat.add_succ_r.
Qed.

(** The error [registerTask] returns does not depend on the registry
    client. *)
Lemma registerTask_error (m : Mesos.t) (taskTag : list (string * list string))
    (t : Task.t) (agent : string) (r : R) :
  (registerTask m taskTag t agent r).1 =
  match Task.Label t "consul" with
  | Some _ => Some (errors_New "Application with consul label")
  | None =>
      if Mesos.TaskPrivilege m (taskName m t) then None
      else Some (errors_New "Task not allowed to be registered")
  end.
Proof.
  unfold registerTask.
  destruct (Task.Label t "consul"); [done|].
  destruct (Mesos.TaskPrivilege m (taskName m t)); cbn; [|done].
  by destruct (negb _).
Qed.

(** All the calls of [registerTask], case by case. *)
Lemma registerTask_calls (m : Mesos.t) (taskTag : list (string * list string))
    (t : Task.t) (agent : string) (r : R) :
  callsOf (registerTaskOn m taskTag t agent) r =
  match Task.Label t "consul" with
  | Some _ => []
  | None =>
      if Mesos.TaskPrivilege m (taskName m t) then
        if String.eqb (DiscoveryInfo.Name (Task.DiscoveryInfo t)) EmptyString
        then [CallRegister
                (plainService m t agent (taskName m t)
                   (Task_IP t (Mesos.IpOrder m)) (baseTags m taskTag t))]
        else concat
               (imap (portCalls m t agent (taskName m t)
                        (Task_IP t (Mesos.IpOrder m)) (baseTags m taskTag t))
                     (Ports.DiscoveryPorts
                        (DiscoveryInfo.Ports (Task.DiscoveryInfo t))))
      else []
  end.
Proof.
  unfold callsOf, registerTaskOn, registerTask.
  destruct (Task.Label t "consul"); [done|].
  destruct (Mesos.TaskPrivilege m (taskName m t)); cbn [negb]; [|done].
  destruct (String.eqb _ EmptyString); cbn [negb snd]; [done|].
  by rewrite rangePorts_calls.
Qed.

End TaskCalls.

(** ** Labels *)

Lemma lookupLabel_is_Some (ls : list Label.t) (key : string) :
  is_Some (lookupLabel ls key) <-> exists l, l ∈ ls /\ Label.Key l = key.
Proof.
  induction ls as [|l ls IH]; cbn.
  - split; [by intros [? ?]|]. intros (l & Hl & _). by apply elem_of_nil in Hl.
  - destruct (String.eqb (Label.Key l) key) eqn:Hk.
    + apply String.eqb_eq in Hk. split; [|by eauto].
      intros _. exists l. split; [apply list_elem_of_here|done].
    + apply String.eqb_neq in Hk. rewrite IH. split.
      * intros (l' & Hl' & Hkey). exists l'. split; [by apply list_elem_of_further|done].
      * intros (l' & Hl' & Hkey). apply elem_of_cons in Hl' as [->|Hl']; [done|].
        by exists l'.
Qed.

Lemma lookupLabel_None (ls : list Label.t) (key : string) :
  lookupLabel ls key = None <-> forall l, l ∈ ls -> Label.Key l <> key.
Proof.
  rewrite eq_None_not_Some, lookupLabel_is_Some. split.
  - intros Hno l Hl Hkey. apply Hno. by exists l.
  - intros Hall (l & Hl & Hkey). by apply (Hall l).
Qed.

(** ** The refusals of [registerTask] *)

(** C2. A task that carries a label of key consul makes [registerTask]
    return the error of message [Application with consul label] without any
    call on the registry client; a task without such a label whose cleaned,
    possibly overridden, name is refused by the allow-list makes it return
    the error of message [Task not allowed to be registered], again without
    any call on the registry client. *)
Theorem registerTask_refusals {ext : Externals} {R : Type} `{!Registry R}
    (m : Mesos.t) (taskTag : list (string * list string)) (t : Task.t)
    (agent : string) (r : R) :
  ((exists l, l ∈ Task.Labels t /\ Label.Key l = "consul") ->
   registerTask m taskTag t agent r =
   (Some (errors_New "Application with consul label"), r) /\
   callsOf (registerTaskOn m taskTag t agent) r = []) /\
  ((forall l, l ∈ Task.Labels t -> Label.Key l <> "consul") ->
   Mesos.TaskPrivilege m (taskName m t) = false ->
   registerTask m taskTag t agent r =
   (Some (errors_New "Task not allowed to be registered"), r) /\
   callsOf (registerTaskOn m taskTag t agent) r = []).
Proof.
  split.
  - intros Hmark. apply lookupLabel_is_Some in Hmark as [v Hv].
    rewrite registerTask_calls. unfold registerTask, Task.Label.
    by rewrite Hv.
  - intros Hno Hdeny. apply lookupLabel_None in Hno.
    rewrite registerTask_calls. unfold registerTask, Task.Label.
    by rewrite Hno, Hdeny.
Qed.

Lemma registerTask_refusals_witness :
  (registerTask (ext := exExternals) (exMesos "mesos-consul" []) exTaskTag
     exTaskConsul EmptyString (∅ : gmap string Service.t) =
   (Some (errors_New "Application with consul label"), ∅) /\
   callsOf (registerTaskOn (ext := exExternals) (exMesos "mesos-consul" [])
              exTaskTag exTaskConsul EmptyString)
           (∅ : gmap string Service.t) = []) /\
  (registerTask (ext := exExternals) (exMesos "mesos-consul" []) exTaskTag
     exTaskSecret "10.0.0.5" (∅ : gmap string Service.t) =
   (Some (errors_New "Task not allowed to be registered"), ∅) /\
   callsOf (registerTaskOn (ext := exExternals) (exMesos "mesos-consul" [])
              exTaskTag exTaskSecret "10.0.0.5")
           (∅ : gmap string Service.t) = []).
Proof.
  split.
  - apply (proj1 (registerTask_refusals (ext := exExternals) _ _ _ _ _)).
    exists (mkLabel "consul" EmptyString).
    split; [apply list_elem_of_here|reflexivity].
  - apply (proj2 (registerTask_refusals (ext := exExternals) _ _ _ _ _)).
    + intros l Hl. by apply elem_of_nil in Hl.
    + reflexivity.
Defined.

(** [exTaskTag] is the one way to visit the rule table of [exMesos]. *)
Lemma ranges_exTaskTag (prefix : string) (serviceTags : list string) :
  ranges (Mesos.taskTag (exMesos prefix serviceTags)) exTaskTag.
Proof. unfold ranges. cbn. by rewrite map_to_list_singleton. Qed.

(** ** Task entries and the cache *)

(** C3, as the code has it.  No entry of [registerTask] goes through the
    cache-diff decision: whatever the task, every call [registerTask] makes
    on the registry client is a [Register] call (the entry without ports,
    the primary entry of the first port and the entries of the named ports
    alike), and the calls are the same whatever the registry client
    holds. *)
Theorem registerTask_registers_unconditionally
    {ext : Externals} {R : Type} `{!Registry R}
    (m : Mesos.t) (taskTag : list (string * list string)) (t : Task.t)
    (agent : string) (r : R) :
  Forall (fun c => exists s, c = CallRegister s)
         (callsOf (registerTaskOn m taskTag t agent) r) /\
  (forall r' : R,
     callsOf (registerTaskOn m taskTag t agent) r' =
     callsOf (registerTaskOn m taskTag t agent) r).
Proof.
  split; [|intros r'; by rewrite !registerTask_calls].
  rewrite registerTask_calls.
  destruct (Task.Label t "consul"); [by constructor|].
  destruct (Mesos.TaskPrivilege m (taskName m t)); [|by constructor].
  destruct (String.eqb _ EmptyString).
  { constructor; [by eexists|by constructor]. }
  apply Forall_concat, Forall_forall. intros cs Hcs.
  apply elem_of_lookup_imap in Hcs as (key & p & -> & _).
  unfold portCalls. apply Forall_app. split.
  - destruct (Nat.eqb key 0); constructor; [by eexists|by constructor].
  - destruct (negb _); constructor; [by eexists|by constructor].
Qed.

(** The entry without ports of [exTaskPlain] is in the cache with the same
    tags: the cache-diff decision confirms it, [registerTask] registers it
    without looking. *)
Lemma registerTask_cache_check_counterexample :
  let s :=
    plainService (ext := exExternals) (exMesos "svc" []) exTaskPlain
      "10.0.0.5" "web-service-1" "192.168.1.10"
      ["blue"; "green"; "frontend"; "http"] in
  let cache : gmap string Service.t := {[Service.ID s := s]} in
  callsOf (registerHost s) cache =
  [CallCacheLookup (Service.ID s); CallCacheMark (Service.ID s)] /\
  callsOf (registerTaskOn (ext := exExternals) (exMesos "svc" []) exTaskTag
             exTaskPlain "10.0.0.5") cache =
  [CallRegister s].
Proof. split; vm_compute; reflexivity. Qed.

(** ** The entry of a task without a discovery name *)

(** C5, as the code has it.  An allowed task without the consul label and
    with an empty discovery name makes [registerTask] return no error after
    exactly one [Register] call, for a service of the cleaned task name, the
    resolved address, no port, the base tags and a health check built from
    the host alone. *)
Theorem registerTask_plain {ext : Externals} {R : Type} `{!Registry R}
    (m : Mesos.t) (taskTag : list (string * list string)) (t : Task.t)
    (agent : string) (r : R) :
  ranges (Mesos.taskTag m) taskTag ->
  (forall l, l ∈ Task.Labels t -> Label.Key l <> "consul") ->
  Mesos.TaskPrivilege m (taskName m t) = true ->
  DiscoveryInfo.Name (Task.DiscoveryInfo t) = EmptyString ->
  (registerTask m taskTag t agent r).1 = None /\
  callsOf (registerTaskOn m taskTag t agent) r =
  [CallRegister
     {| Service.ID :=
          Mesos.ServiceIdPrefix m +:+ ":" +:+ agent +:+ "-" +:+ taskName m t
          +:+ ":" +:+ Task_IP t (Mesos.IpOrder m);
        Service.Name := taskName m t;
        Service.Port := 0;
        Service.Address := Task_IP t (Mesos.IpOrder m);
        Service.Tags := baseTags m taskTag t;
        Service.Check :=
          GetCheck t {| CheckVar.Host := toIP (Task_IP t (Mesos.IpOrder m));
                        CheckVar.Port := EmptyString |};
        Service.Agent := toIP agent |}].
Proof.
  intros _ Hno%lookupLabel_None Hallow Hname.
  rewrite registerTask_error, registerTask_calls. unfold Task.Label.
  by rewrite Hno, Hallow, Hname.
Qed.

Lemma registerTask_plain_witness :
  (registerTask (ext := exExternals) (exMesos "svc" []) exTaskTag exTaskPlain
     "10.0.0.5" (∅ : gmap string Service.t)).1 = None /\
  callsOf (registerTaskOn (ext := exExternals) (exMesos "svc" []) exTaskTag
             exTaskPlain "10.0.0.5") (∅ : gmap string Service.t) =
  [CallRegister
     {| Service.ID := "svc:10.0.0.5-web-service-1:192.168.1.10";
        Service.Name := "web-service-1";
        Service.Port := 0;
        Service.Address := "192.168.1.10";
        Service.Tags := ["blue"; "green"; "frontend"; "http"];
        Service.Check :=
          Some {| Check.HTTP := "http://192.168.1.10:";
                  Check.Interval := "10s" |};
        Service.Agent := "10.0.0.5" |}].
Proof.
  apply (registerTask_plain (ext := exExternals) (exMesos "svc" []) exTaskTag
           exTaskPlain "10.0.0.5" ∅).
  - apply ranges_exTaskTag.
  - intros l Hl. revert Hl. cbn. rewrite list_elem_of_singleton. by intros ->.
  - reflexivity.
  - reflexivity.
Defined.

(** [exTaskNoPorts] is allowed, has no consul label and declares no
    discovery port, and [registerTask] makes no [Register] call for it. *)
Lemma registerTask_no_ports_counterexample :
  Ports.DiscoveryPorts
    (DiscoveryInfo.Ports (Task.DiscoveryInfo exTaskNoPorts)) = [] /\
  Task.Label exTaskNoPorts "consul" = None /\
  Mesos.TaskPrivilege (exMesos "svc" [])
    (taskName (ext := exExternals) (exMesos "svc" []) exTaskNoPorts) = true /\
  callsOf (registerTaskOn (ext := exExternals) (exMesos "svc" []) exTaskTag
             exTaskNoPorts "10.0.0.5") (∅ : gmap string Service.t) = [].
Proof. repeat split. Qed.

(** ** The entries of the discovery ports *)

(** C6, as the code has it.  For an allowed task without the consul label
    whose discovery name is not empty, the calls of [registerTask] are, port
    by port in the declared order: the primary entry when the port is the
    first one, then, when the port has a name, one [Register] call for the
    entry whose name is the cleaned base name, dash, port name, whose tags
    are the base tags, then the port name, then the tags of the port, and
    whose identifier ends with the port number.  A port without a name gets
    no such entry. *)
Theorem registerTask_named_ports {ext : Externals} {R : Type} `{!Registry R}
    (m : Mesos.t) (taskTag : list (string * list string)) (t : Task.t)
    (agent : string) (r : R) :
  ranges (Mesos.taskTag m) taskTag ->
  (forall l, l ∈ Task.Labels t -> Label.Key l <> "consul") ->
  Mesos.TaskPrivilege m (taskName m t) = true ->
  DiscoveryInfo.Name (Task.DiscoveryInfo t) <> EmptyString ->
  let tname := taskName m t in
  let address := Task_IP t (Mesos.IpOrder m) in
  let tags := baseTags m taskTag t in
  let named (p : DiscoveryPort.t) : Service.t :=
    {| Service.ID :=
         Mesos.ServiceIdPrefix m +:+ ":" +:+ agent +:+ ":" +:+ tname +:+ ":"
         +:+ address +:+ ":" +:+ strconv_Itoa (DiscoveryPort.Number p);
       Service.Name :=
         cleanName (tname +:+ "-" +:+ DiscoveryPort.Name p)
                   (Mesos.Separator m);
       Service.Port := toPort (strconv_Itoa (DiscoveryPort.Number p));
       Service.Address := address;
       Service.Tags := tags ++ [DiscoveryPort.Name p] ++ portTags p;
       Service.Check :=
         GetCheck t
           {| CheckVar.Host := toIP address;
              CheckVar.Port := strconv_Itoa (DiscoveryPort.Number p) |};
       Service.Agent := toIP agent |} in
  (registerTask m taskTag t agent r).1 = None /\
  callsOf (registerTaskOn m taskTag t agent) r =
  concat
    (imap (fun (key : nat) (p : DiscoveryPort.t) =>
             (if Nat.eqb key 0
              then [CallRegister (primaryService t agent tname address tags p)]
              else [])
             ++
             (if String.eqb (DiscoveryPort.Name p) EmptyString
              then []
              else [CallRegister (named p)]))
          (Ports.DiscoveryPorts (DiscoveryInfo.Ports (Task.DiscoveryInfo t)))).
Proof.
  intros _ Hno%lookupLabel_None Hallow Hname%String.eqb_neq
         tname address tags named.
  rewrite registerTask_error, registerTask_calls. unfold Task.Label.
  rewrite Hno, Hallow, Hname. split; [done|].
  f_equal. apply imap_ext. intros key p _. cbn beta.
  unfold portCalls. f_equal.
  destruct (String.eqb (DiscoveryPort.Name p) EmptyString); cbn [negb]; [done|].
  unfold namedService, named. by rewrite <- app_assoc.
Qed.

Lemma registerTask_named_ports_witness :
  (registerTask (ext := exExternals) (exMesos "svc" []) exTaskTag exTaskWeb
     "10.0.0.5" (∅ : gmap string Service.t)).1 = None /\
  callsOf (registerTaskOn (ext := exExternals) (exMesos "svc" []) exTaskTag
             exTaskWeb "10.0.0.5") (∅ : gmap string Service.t) =
  [ CallRegister
      {| Service.ID := "mesos-consul:10.0.0.5:web-service-1:8080";
         Service.Name := "web-service-1";
         Service.Port := 8080;
         Service.Address := "192.168.1.10";
         Service.Tags := ["blue"; "green"; "frontend"; "http"];
         Service.Check :=
           Some {| Check.HTTP := "http://192.168.1.10:8080";
                   Check.Interval := "10s" |};
         Service.Agent := "10.0.0.5" |};
    CallRegister
      {| Service.ID := "svc:10.0.0.5:web-service-1:192.168.1.10:8080";
         Service.Name := "web-service-1-http";
         Service.Port := 8080;
         Service.Address := "192.168.1.10";
         Service.Tags := ["blue"; "green"; "frontend"; "http"; "http"; "public"];
         Service.Check :=
           Some {| Check.HTTP := "http://192.168.1.10:8080";
                   Check.Interval := "10s" |};
         Service.Agent := "10.0.0.5" |};
    CallRegister
      {| Service.ID := "svc:10.0.0.5:web-service-1:192.168.1.10:9090";
         Service.Name := "web-service-1-admin";
         Service.Port := 9090;
         Service.Address := "192.168.1.10";
         Service.Tags := ["blue"; "green"; "frontend"; "http"; "admin"];
         Service.Check :=
           Some {| Check.HTTP := "http://192.168.1.10:9090";
                   Check.Interval := "10s" |};
         Service.Agent := "10.0.0.5" |} ].
Proof.
  apply (registerTask_named_ports (ext := exExternals) (exMesos "svc" [])
           exTaskTag exTaskWeb "10.0.0.5" ∅).
  - apply ranges_exTaskTag.
  - intros l Hl. revert Hl. cbn. rewrite list_elem_of_singleton. by intros ->.
  - reflexivity.
  - discriminate.
Defined.

(** [exTaskUnnamed] is allowed, has no consul label and declares the port
    8080 under the name http, and [registerTask] registers the entry
    without ports only: no entry of name web-service-1-http. *)
Lemma registerTask_named_port_counterexample :
  Ports.DiscoveryPorts
    (DiscoveryInfo.Ports (Task.DiscoveryInfo exTaskUnnamed)) =
  [mkPort "http" 8080 []] /\
  Task.Label exTaskUnnamed "consul" = None /\
  Mesos.TaskPrivilege (exMesos "svc" [])
    (taskName (ext := exExternals) (exMesos "svc" []) exTaskUnnamed) = true /\
  callsOf (registerTaskOn (ext := exExternals) (exMesos "svc" []) exTaskTag
             exTaskUnnamed "10.0.0.5") (∅ : gmap string Service.t) =
  [CallRegister
     {| Service.ID := "svc:10.0.0.5-web-service-1:192.168.1.10";
        Service.Name := "web-service-1";
        Service.Port := 0;
        Service.Address := "192.168.1.10";
        Service.Tags := ["frontend"; "http"];
        Service.Check :=
          Some {| Check.HTTP := "http://192.168.1.10:";
                  Check.Interval := "10s" |};
        Service.Agent := "10.0.0.5" |}].
Proof. repeat split. Qed.

(** ** Identifiers *)

Lemma prefix_append (a b : string) : String.prefix a (a +:+ b) = true.
Proof.
  induction a as [|c a IH]; [by destruct b|].
  change (String c a +:+ b) with (String c (a +:+ b)). cbn [String.prefix].
  destruct (ascii_dec c c); [done|congruence].
Qed.

(** The identifiers of the host entries, of the entry without ports and of
    the entries of the named ports start with the configured prefix and a
    colon. *)
Lemma identifiers_with_prefix {ext : Externals} (m : Mesos.t) :
  (forall f, String.prefix (Mesos.ServiceIdPrefix m +:+ ":")
               (Service.ID (slaveService m f)) = true) /\
  (forall ma, String.prefix (Mesos.ServiceIdPrefix m +:+ ":")
                (Service.ID (masterService m ma)) = true) /\
  (forall t agent tname address tags,
     String.prefix (Mesos.ServiceIdPrefix m +:+ ":")
       (Service.ID (plainService m t agent tname address tags)) = true) /\
  (forall t agent tname address tags p,
     String.prefix (Mesos.ServiceIdPrefix m +:+ ":")
       (Service.ID (namedService m t agent tname address tags p)) = true).
Proof.
  assert (forall a b c : string, (a +:+ b) +:+ c = a +:+ b +:+ c) as Hassoc.
  { intros a b c. induction a as [|x a IH]; [done|].
    change (String x ((a +:+ b) +:+ c) = String x (a +:+ b +:+ c)).
    by rewrite IH. }
  repeat split; intros; cbn [Service.ID slaveService masterService
                               plainService namedService];
    rewrite <- Hassoc; apply prefix_append.
Qed.

(** The identifier of the primary entry of the first port starts with the
    literal mesos-consul, whatever prefix is configured. *)
Lemma registerTask_primary_identifier
    {ext : Externals} {R : Type} `{!Registry R}
    (m : Mesos.t) (taskTag : list (string * list string)) (t : Task.t)
    (agent : string) (r : R) (p : DiscoveryPort.t)
    (ports : list DiscoveryPort.t) :
  (forall l, l ∈ Task.Labels t -> Label.Key l <> "consul") ->
  Mesos.TaskPrivilege m (taskName m t) = true ->
  DiscoveryInfo.Name (Task.DiscoveryInfo t) <> EmptyString ->
  Ports.DiscoveryPorts (DiscoveryInfo.Ports (Task.DiscoveryInfo t)) =
  p :: ports ->
  exists (s : Service.t) (rest : list Call),
    callsOf (registerTaskOn m taskTag t agent) r = CallRegister s :: rest /\
    Service.ID s =
    "mesos-consul:" +:+ agent +:+ ":" +:+ taskName m t +:+ ":" +:+
    strconv_Itoa (DiscoveryPort.Number p).
Proof.
  intros Hno%lookupLabel_None Hallow Hname%String.eqb_neq Hports.
  rewrite registerTask_calls. unfold Task.Label.
  rewrite Hno, Hallow, Hname, Hports, imap_cons. cbn [concat portCalls Nat.eqb].
  eexists _, _. split; [reflexivity|reflexivity].
Qed.

(** C4, on the code.  With the prefix svc configured, the first entry
    [registerTask] registers for [exTaskWeb] (the primary entry of its first
    port, 8080) has the identifier mesos-consul:10.0.0.5:web-service-1:8080,
    which does not start with svc and a colon, while the entry of the named
    port that follows does. *)
Theorem registerTask_primary_identifier_ignores_prefix :
  exists (s s' : Service.t) (rest : list Call),
    callsOf (registerTaskOn (ext := exExternals) (exMesos "svc" []) exTaskTag
               exTaskWeb "10.0.0.5") (∅ : gmap string Service.t) =
    CallRegister s :: CallRegister s' :: rest /\
    Service.ID s = "mesos-consul:10.0.0.5:web-service-1:8080" /\
    String.prefix "svc:" (Service.ID s) = false /\
    Service.ID s' = "svc:10.0.0.5:web-service-1:192.168.1.10:8080".
Proof. eexists _, _, _. repeat split. Qed.

(** ** Node tags *)

Lemma foldl_snoc_map {A B : Type} (f : B -> A) (l : list B) (acc : list A) :
  foldl (fun rval t => rval ++ [f t]) acc l = acc ++ map f l.
Proof.
  revert acc. induction l as [|x l IH]; intros acc; cbn.
  - by rewrite app_nil_r.
  - by rewrite IH, <- app_assoc.
Qed.

Lemma foldl_snoc_flat_map {A B C : Type} (g : B -> C -> A) (ts : list B)
    (l : list C) (acc : list A) :
  foldl (fun rval tag => foldl (fun rval t => rval ++ [g t tag]) rval ts) acc l =
  acc ++ flat_map (fun tag => map (fun t => g t tag) ts) l.
Proof.
  revert acc. induction l as [|tag l IH]; intros acc; cbn.
  - by rewrite app_nil_r.
  - by rewrite IH, foldl_snoc_map, <- app_assoc.
Qed.

(** With suffixes configured, [agentTags] lists, suffix by suffix, every
    role followed by a dot and the suffix. *)
Lemma agentTags_suffixes (m : Mesos.t) (ts : list string) :
  Mesos.ServiceTags m <> [] ->
  agentTags m ts =
  flat_map (fun tag => map (fun t => t +:+ "." +:+ tag) ts)
           (Mesos.ServiceTags m).
Proof.
  intros Hne. unfold agentTags.
  destruct (Mesos.ServiceTags m) as [|tag0 tags0] eqn:Htags; [done|].
  cbn [length Nat.eqb].
  by rewrite (foldl_snoc_flat_map (fun t tag => t +:+ "." +:+ tag)).
Qed.

(** C9. Without configured suffixes [agentTags] returns the roles as they
    are; with suffixes it returns the tags role, dot, suffix for every role
    and every suffix, and nothing else. *)
Theorem agentTags_cross_product (m : Mesos.t) (ts : list string) :
  (Mesos.ServiceTags m = [] -> agentTags m ts = ts) /\
  (Mesos.ServiceTags m <> [] ->
   (forall x : string,
      x ∈ agentTags m ts <->
      exists t tag,
        t ∈ ts /\ tag ∈ Mesos.ServiceTags m /\ x = t +:+ "." +:+ tag) /\
   length (agentTags m ts) = length (Mesos.ServiceTags m) * length ts).
Proof.
  split.
  - intros Hnil. unfold agentTags. by rewrite Hnil.
  - intros Hne. rewrite agentTags_suffixes by done. split.
    + intros x. rewrite list_elem_of_In, in_flat_map. split.
      * intros (tag & Htag & Hx). apply in_map_iff in Hx as (t & <- & Ht).
        exists t, tag. by rewrite !list_elem_of_In.
      * intros (t & tag & Ht & Htag & ->). exists tag.
        rewrite <- list_elem_of_In. split; [done|].
        apply in_map_iff. exists t. by rewrite <- list_elem_of_In.
    + clear Hne. induction (Mesos.ServiceTags m) as [|tag l IH]; [done|].
      cbn. by rewrite length_app, length_map, IH.
Qed.

Lemma agentTags_cross_product_witness :
  agentTags (exMesos "mesos-consul" []) ["agent"; "follower"] =
  ["agent"; "follower"] /\
  ("follower.rack1" ∈
     agentTags (exMesos "mesos-consul" ["rack1"; "eu"]) ["agent"; "follower"]) /\
  length (agentTags (exMesos "mesos-consul" ["rack1"; "eu"])
            ["agent"; "follower"]) = 4.
Proof.
  split; [|split].
  - apply (proj1 (agentTags_cross_product (exMesos "mesos-consul" []) _)).
    reflexivity.
  - apply (proj1 (proj2 (agentTags_cross_product
                           (exMesos "mesos-consul" ["rack1"; "eu"])
                           ["agent"; "follower"]) ltac:(discriminate))).
    exists "follower", "rack1". repeat split; compute_done.
  - apply (proj2 (proj2 (agentTags_cross_product
                           (exMesos "mesos-consul" ["rack1"; "eu"])
                           ["agent"; "follower"]) ltac:(discriminate))).
Defined.

(** ** [RegisterHosts] *)

Section Hosts.
Context {ext : Externals}.
Context {R : Type} `{!Registry R}.

Lemma agentTags_setAgents (a : gmap string string) (m : Mesos.t)
    (ts : list string) :
  agentTags (Mesos.setAgents a m) ts = agentTags m ts.
Proof. done. Qed.

Lemma slaveService_setAgents (a : gmap string string) (m : Mesos.t)
    (f : Slave.t) :
  slaveService (Mesos.setAgents a m) f = slaveService m f.
Proof. done. Qed.

Lemma masterService_setAgents (a : gmap string string) (m : Mesos.t)
    (ma : MesosHost.t) :
  masterService (Mesos.setAgents a m) ma = masterService m ma.
Proof. done. Qed.

(** The loop over the workers: the map collects the addresses, the
    registry client sees [registerHost] for every worker in order. *)
Lemma foldl_registerSlave (m : Mesos.t) (slaves : list Slave.t) :
  forall (a : gmap string string) (r : R),
    foldl registerSlave (Mesos.setAgents a m, r) slaves =
    (Mesos.setAgents
       (foldl (fun a f => <[Slave.ID f := agentAddress f]> a) a slaves) m,
     foldl (fun r e => registerHost e r) r (map (slaveService m) slaves)).
Proof.
  induction slaves as [|f slaves IH]; intros a r; [done|].
  cbn [foldl map]. unfold registerSlave at 2.
  change (Mesos.setAgents ?b (Mesos.setAgents a m)) with (Mesos.setAgents b m).
  rewrite slaveService_setAgents. apply IH.
Qed.

(** [RegisterHosts] in one equation. *)
Lemma RegisterHosts_unfold (m : Mesos.t) (s : State.t) (r : R) :
  RegisterHosts m s r =
  let m' := Mesos.setAgents (agentsOf (State.Slaves s)) m in
  (m',
   foldl (fun r e => registerHost e r) r
         (map (slaveService m) (State.Slaves s) ++
          map (masterService m) (getMasters m'))).
Proof.
  unfold RegisterHosts. rewrite foldl_registerSlave. cbn zeta.
  fold (agentsOf (State.Slaves s)).
  rewrite foldl_app. f_equal.
  generalize (foldl (fun r e => registerHost e r) r
                    (map (slaveService m) (State.Slaves s))).
  generalize (getMasters (Mesos.setAgents (agentsOf (State.Slaves s)) m)).
  intros mas. induction mas as [|ma mas IH]; intros r0; [done|].
  cbn [foldl map]. by rewrite IH.
Qed.

End Hosts.

Section Agents.
Context {ext : Externals}.

Lemma agentsOf_snoc (slaves : list Slave.t) (f : Slave.t) :
  agentsOf (slaves ++ [f]) = <[Slave.ID f := agentAddress f]> (agentsOf slaves).
Proof. unfold agentsOf. by rewrite foldl_app. Qed.

(** Every entry of the map comes from a worker. *)
Lemma agentsOf_lookup_Some (slaves : list Slave.t) (id ip : string) :
  agentsOf slaves !! id = Some ip ->
  exists f, f ∈ slaves /\ Slave.ID f = id /\ ip = agentAddress f.
Proof.
  induction slaves as [|f slaves IH] using rev_ind.
  - unfold agentsOf. cbn. by rewrite lookup_empty.
  - rewrite agentsOf_snoc. destruct (decide (Slave.ID f = id)) as [Heq|Hne].
    + rewrite <- Heq, lookup_insert_eq. intros [= <-].
      exists f. split; [|done]. apply elem_of_app. right. apply list_elem_of_here.
    + rewrite lookup_insert_ne by done. intros (f' & Hf' & Hid & Hip)%IH.
      exists f'. split; [|done]. apply elem_of_app. by left.
Qed.

(** Every worker has an entry. *)
Lemma agentsOf_is_Some (slaves : list Slave.t) (f : Slave.t) :
  f ∈ slaves -> is_Some (agentsOf slaves !! Slave.ID f).
Proof.
  induction slaves as [|f' slaves IH] using rev_ind.
  - by intros ?%elem_of_nil.
  - rewrite agentsOf_snoc. intros Hf.
    destruct (decide (Slave.ID f' = Slave.ID f)) as [Heq|Hne].
    + rewrite <- Heq, lookup_insert_eq. by eexists.
    + rewrite lookup_insert_ne by done. apply IH.
      apply elem_of_app in Hf as [Hf|Hf]; [done|].
      apply list_elem_of_singleton in Hf. by subst.
Qed.

(** The identifiers of the map are those of the workers. *)
Lemma agentsOf_dom (slaves : list Slave.t) :
  dom (agentsOf slaves) = list_to_set (Slave.ID <$> slaves).
Proof.
  induction slaves as [|f slaves IH] using rev_ind; [done|].
  rewrite agentsOf_snoc, dom_insert_L, IH, fmap_app, list_to_set_app_L.
  cbn. by rewrite (right_id_L ∅ (∪)), (comm_L (∪)).
Qed.

(** With distinct identifiers, the entry of a worker holds its address. *)
Lemma agentsOf_lookup (slaves : list Slave.t) (f : Slave.t) :
  NoDup (Slave.ID <$> slaves) -> f ∈ slaves ->
  agentsOf slaves !! Slave.ID f = Some (agentAddress f).
Proof.
  induction slaves as [|f' slaves IH] using rev_ind.
  - by intros _ ?%elem_of_nil.
  - rewrite agentsOf_snoc, fmap_app. intros Hnd Hf.
    apply NoDup_app in Hnd as (Hnd & Hdisj & _).
    apply elem_of_app in Hf as [Hf|Hf].
    + rewrite lookup_insert_ne; [by apply IH|].
      intros Heq. apply (Hdisj (Slave.ID f)).
      * apply list_elem_of_fmap. by exists f.
      * rewrite <- Heq. cbn. apply list_elem_of_here.
    + apply list_elem_of_singleton in Hf. subst f'. apply lookup_insert_eq.
Qed.

End Agents.

(** C7. [RegisterHosts] passes to [registerHost], in order, one entry for
    every worker of the snapshot and then one entry for every control-plane
    node.  The entry of a worker has the tags [agentTags] derives from agent
    and follower and an HTTP check on host, port and the path
    /slave(1)/health, every 10s; the entry of a control-plane node has the
    tags derived from leader and master when it is the leader, from master
    otherwise, and an HTTP check on ip, port and the path /master/health,
    every 10s.  Without configured suffixes the derived tags are the roles
    themselves. *)
Theorem RegisterHosts_entries {ext : Externals} {R : Type} `{!Registry R}
    (m : Mesos.t) (s : State.t) (r : R) :
  let worker (f : Slave.t) : Service.t :=
    let host := toIP (PID.Host (Slave.PID f)) in
    let port := toPort (PID.Port (Slave.PID f)) in
    {| Service.ID :=
         Mesos.ServiceIdPrefix m +:+ ":" +:+ Mesos.ServiceName m +:+ ":" +:+
         Slave.ID f +:+ ":" +:+ Slave.Hostname f;
       Service.Name := Mesos.ServiceName m;
       Service.Port := port;
       Service.Address := host;
       Service.Tags := agentTags m ["agent"; "follower"];
       Service.Check :=
         Some {| Check.HTTP :=
                   "http://" +:+ host +:+ ":" +:+ strconv_Itoa port +:+
                   "/slave(1)/health";
                 Check.Interval := "10s" |};
       Service.Agent := host |} in
  let master (ma : MesosHost.t) : Service.t :=
    {| Service.ID :=
         Mesos.ServiceIdPrefix m +:+ ":" +:+ Mesos.ServiceName m +:+ ":" +:+
         MesosHost.Ip ma +:+ ":" +:+ MesosHost.PortString ma;
       Service.Name := Mesos.ServiceName m;
       Service.Port := MesosHost.Port ma;
       Service.Address := MesosHost.Ip ma;
       Service.Tags :=
         if MesosHost.IsLeader ma then agentTags m ["leader"; "master"]
         else agentTags m ["master"];
       Service.Check :=
         Some {| Check.HTTP :=
                   "http://" +:+ MesosHost.Ip ma +:+ ":" +:+
                   strconv_Itoa (MesosHost.Port ma) +:+ "/master/health";
                 Check.Interval := "10s" |};
       Service.Agent := MesosHost.Ip ma |} in
  (RegisterHosts m s r).2 =
  foldl (fun r e => registerHost e r) r
        (map worker (State.Slaves s) ++
         map master (getMasters (RegisterHosts m s r).1)) /\
  (Mesos.ServiceTags m = [] ->
   agentTags m ["agent"; "follower"] = ["agent"; "follower"] /\
   agentTags m ["leader"; "master"] = ["leader"; "master"] /\
   agentTags m ["master"] = ["master"]).
Proof.
  intros worker master. split.
  - by rewrite RegisterHosts_unfold.
  - intros Hnil. unfold agentTags. by rewrite Hnil.
Qed.

Lemma RegisterHosts_entries_witness :
  callsOf (RegisterHostsOn (ext := exExternals) (exMesos "mesos-consul" [])
             exState) (∅ : gmap string Service.t) =
  [ CallCacheLookup "mesos-consul:mesos:agent-1:node1";
    CallRegister
      {| Service.ID := "mesos-consul:mesos:agent-1:node1";
         Service.Name := "mesos";
         Service.Port := 5051;
         Service.Address := "10.0.0.5";
         Service.Tags := ["agent"; "follower"];
         Service.Check :=
           Some {| Check.HTTP := "http://10.0.0.5:5051/slave(1)/health";
                   Check.Interval := "10s" |};
         Service.Agent := "10.0.0.5" |};
    CallCacheLookup "mesos-consul:mesos:10.0.0.1:5050";
    CallRegister
      {| Service.ID := "mesos-consul:mesos:10.0.0.1:5050";
         Service.Name := "mesos";
         Service.Port := 5050;
         Service.Address := "10.0.0.1";
         Service.Tags := ["leader"; "master"];
         Service.Check :=
           Some {| Check.HTTP := "http://10.0.0.1:5050/master/health";
                   Check.Interval := "10s" |};
         Service.Agent := "10.0.0.1" |};
    CallCacheLookup "mesos-consul:mesos:10.0.0.2:5050";
    CallRegister
      {| Service.ID := "mesos-consul:mesos:10.0.0.2:5050";
         Service.Name := "mesos";
         Service.Port := 5050;
         Service.Address := "10.0.0.2";
         Service.Tags := ["master"];
         Service.Check :=
           Some {| Check.HTTP := "http://10.0.0.2:5050/master/health";
                   Check.Interval := "10s" |};
         Service.Agent := "10.0.0.2" |} ] /\
  agentTags (exMesos "mesos-consul" []) ["agent"; "follower"] =
  ["agent"; "follower"].
Proof.
  pose proof (RegisterHosts_entries (ext := exExternals)
                (exMesos "mesos-consul" []) exState
                (fresh (∅ : gmap string Service.t))) as [Hcalls Htags].
  split.
  - unfold callsOf, RegisterHostsOn. rewrite Hcalls. reflexivity.
  - apply Htags. reflexivity.
Defined.

(** C10. After [RegisterHosts] the agent-address map holds, whatever it held
    before, entries of workers of the given snapshot only, each mapping the
    identifier of a worker to the address resolved from the host the worker
    reports; every worker has an entry; and when the identifiers of the
    workers are distinct, as identifiers are, the entry of each worker holds
    the address of that worker and the map has as many entries as the
    snapshot has workers. *)
Theorem RegisterHosts_agents {ext : Externals} {R : Type} `{!Registry R}
    (m : Mesos.t) (s : State.t) (r : R) :
  let agents := Mesos.Agents (RegisterHosts m s r).1 in
  (forall id ip : string,
     agents !! id = Some ip ->
     exists f, f ∈ State.Slaves s /\ Slave.ID f = id /\
               ip = toIP (PID.Host (Slave.PID f))) /\
  (forall f, f ∈ State.Slaves s -> is_Some (agents !! Slave.ID f)) /\
  (NoDup (Slave.ID <$> State.Slaves s) ->
   (forall f, f ∈ State.Slaves s ->
              agents !! Slave.ID f = Some (toIP (PID.Host (Slave.PID f)))) /\
   size agents = length (State.Slaves s)).
Proof.
  rewrite RegisterHosts_unfold. cbn [fst Mesos.Agents Mesos.setAgents].
  split; [|split].
  - apply agentsOf_lookup_Some.
  - apply agentsOf_is_Some.
  - intros Hnd. split; [intros f; by apply agentsOf_lookup|].
    rewrite <- size_dom, agentsOf_dom, size_list_to_set by done.
    apply length_fmap.
Qed.

Lemma RegisterHosts_agents_witness :
  Mesos.Agents
    (RegisterHosts (ext := exExternals) (exMesos "mesos-consul" []) exState2
       (∅ : gmap string Service.t)).1 !! "agent-2" = Some "10.0.0.6" /\
  size (Mesos.Agents
          (RegisterHosts (ext := exExternals) (exMesos "mesos-consul" [])
             exState2 (∅ : gmap string Service.t)).1) = 2.
Proof.
  pose proof (RegisterHosts_agents (ext := exExternals)
                (exMesos "mesos-consul" []) exState2
                (∅ : gmap string Service.t)) as (_ & _ & Hdistinct).
  destruct Hdistinct as [Hlookup Hsize]; [compute_done|].
  split; [|exact Hsize].
  apply (Hlookup (exSlave "agent-2" "node2" "10.0.0.6" "5051")).
  cbn. apply list_elem_of_further, list_elem_of_here.
Defined.

(** ** Task tags *)

Section TaskTags.
Context {ext : Externals}.
Variable taskName : string.

(** The pattern occurs in the lower-cased task name. *)
Let matched (pattern : string) : Prop :=
  strings_Contains (strings_ToLower taskName) pattern = true.

(** The inner loop of [buildRegisterTaskTags], over the tags of one rule. *)
Let addTags (pattern : string) (result : list string) (taskTags : list string)
    : list string :=
  foldl (fun result tag =>
           if strings_Contains (strings_ToLower taskName) pattern then
             if negb (sliceContainsString result tag)
             then result ++ [tag]
             else result
           else result)
        result taskTags.

Lemma addTags_spec (pattern : string) (taskTags : list string) :
  forall result : list string,
    exists added,
      addTags pattern result taskTags = result ++ added /\
      NoDup added /\
      (forall x, x ∈ added ->
                 (x ∉ result) /\ x ∈ taskTags /\ matched pattern) /\
      (matched pattern ->
       forall x, x ∈ taskTags -> x ∈ addTags pattern result taskTags).
Proof.
  unfold addTags, matched.
  induction taskTags as [|tag taskTags IH]; intros result.
  { exists []. cbn. rewrite app_nil_r. split; [done|].
    split; [constructor|]. split.
    - intros x Hx. by apply elem_of_nil in Hx.
    - intros _ x Hx. by apply elem_of_nil in Hx. }
  cbn [foldl].
  destruct (strings_Contains (strings_ToLower taskName) pattern) eqn:Hm.
  - destruct (sliceContainsString result tag) eqn:Hin; cbn [negb].
    + apply sliceContainsString_elem_of in Hin.
      destruct (IH result) as (added & -> & Hnd & Hsound & Hcompl).
      exists added. split; [done|]. split; [done|]. split.
      * intros x Hx. destruct (Hsound x Hx) as (Hnot & Htags & _).
        split; [done|]. split; [by apply list_elem_of_further|done].
      * intros _ x [->|Hx]%elem_of_cons.
        -- apply elem_of_app. by left.
        -- by apply Hcompl.
    + apply sliceContainsString_false in Hin.
      destruct (IH (result ++ [tag])) as (added & -> & Hnd & Hsound & Hcompl).
      exists (tag :: added). rewrite <- app_assoc. split; [done|].
      split; [|split].
      * apply NoDup_cons. split; [|done].
        intros Htag. apply Hsound in Htag as [Hnot _].
        apply Hnot, elem_of_app. right. apply list_elem_of_here.
      * intros x [->|Hx]%elem_of_cons.
        -- split; [done|]. split; [apply list_elem_of_here|done].
        -- destruct (Hsound x Hx) as (Hnot & Htags & _). split.
           ++ intros Hres. apply Hnot, elem_of_app. by left.
           ++ split; [by apply list_elem_of_further|done].
      * intros _ x [->|Hx]%elem_of_cons.
        -- rewrite elem_of_app. right. apply list_elem_of_here.
        -- change (result ++ tag :: added) with (result ++ [tag] ++ added).
           rewrite app_assoc. by apply Hcompl.
  - destruct (IH result) as (added & -> & Hnd & Hsound & Hcompl).
    exists added. split; [done|]. split; [done|]. split; [|done].
    intros x Hx. by destruct (Hsound x Hx) as (_ & _ & ?).
Qed.

(** The result of [buildRegisterTaskTags] for a sequence of visits: the
    starting tags, followed without repetition by the tags of the matching
    rules that the starting tags lack. *)
Lemma buildRegisterTaskTags_spec (taskTag : list (string * list string)) :
  forall startingTags : list string,
    exists added,
      buildRegisterTaskTags taskName startingTags taskTag =
      startingTags ++ added /\
      NoDup added /\
      (forall x, x ∈ added ->
                 (x ∉ startingTags) /\
                 exists pattern taskTags,
                   (pattern, taskTags) ∈ taskTag /\ matched pattern /\
                   x ∈ taskTags) /\
      (forall pattern taskTags x,
         (pattern, taskTags) ∈ taskTag -> matched pattern -> x ∈ taskTags ->
         x ∈ buildRegisterTaskTags taskName startingTags taskTag).
Proof.
  unfold buildRegisterTaskTags.
  induction taskTag as [|[pattern taskTags] taskTag IH]; intros startingTags.
  - exists []. cbn. rewrite app_nil_r. split; [done|].
    split; [constructor|]. split.
    + intros x Hx. by apply elem_of_nil in Hx.
    + intros ? ? ? Hin. by apply elem_of_nil in Hin.
  - cbn [foldl]. fold (addTags pattern startingTags taskTags).
    destruct (addTags_spec pattern taskTags startingTags)
      as (a1 & Heq1 & Hnd1 & Hsound1 & Hcompl1).
    destruct (IH (addTags pattern startingTags taskTags))
      as (a2 & Heq2 & Hnd2 & Hsound2 & Hcompl2).
    exists (a1 ++ a2). split; [by rewrite Heq2, Heq1, <- app_assoc|].
    split; [|split].
    + apply NoDup_app. repeat split; [done| |done].
      intros x Hx1 Hx2. apply Hsound2 in Hx2 as [Hnot _].
      apply Hnot. rewrite Heq1. apply elem_of_app. by right.
    + intros x [Hx|Hx]%elem_of_app.
      * apply Hsound1 in Hx as (Hnot & Hin & Hm). split; [done|].
        exists pattern, taskTags. split; [apply list_elem_of_here|done].
      * apply Hsound2 in Hx as (Hnot & p & ts & Hrule & Hm & Hin). split.
        -- intros Hstart. apply Hnot. rewrite Heq1. apply elem_of_app. by left.
        -- exists p, ts. split; [by apply list_elem_of_further|done].
    + intros p ts x [[= -> ->]|Hrule]%elem_of_cons Hm Hin.
      * rewrite Heq2. apply elem_of_app. left. by apply Hcompl1.
      * by apply (Hcompl2 p ts).
Qed.

(** A longer sequence of visits only appends: what is in the result stays
    where it is. *)
Lemma buildRegisterTaskTags_prefix (startingTags : list string)
    (visited rest : list (string * list string)) :
  buildRegisterTaskTags taskName startingTags visited
  `prefix_of` buildRegisterTaskTags taskName startingTags (visited ++ rest).
Proof.
  destruct (buildRegisterTaskTags_spec rest
              (buildRegisterTaskTags taskName startingTags visited))
    as (added & Heq & _).
  exists added. rewrite <- Heq. unfold buildRegisterTaskTags.
  by rewrite foldl_app.
Qed.

(** Visiting the same rules in another order permutes the result. *)
Lemma buildRegisterTaskTags_Permutation (startingTags : list string)
    (taskTag taskTag' : list (string * list string)) :
  taskTag ≡ₚ taskTag' ->
  buildRegisterTaskTags taskName startingTags taskTag ≡ₚ
  buildRegisterTaskTags taskName startingTags taskTag'.
Proof.
  intros Hperm.
  destruct (buildRegisterTaskTags_spec taskTag startingTags)
    as (a & Heq & Hnd & Hsound & Hcompl).
  destruct (buildRegisterTaskTags_spec taskTag' startingTags)
    as (a' & Heq' & Hnd' & Hsound' & Hcompl').
  rewrite Heq, Heq'. apply Permutation_app_head.
  apply NoDup_Permutation; [done|done|]. intros x. split.
  - intros Hx. apply Hsound in Hx as (Hnot & p & ts & Hrule & Hm & Hin).
    rewrite Hperm in Hrule. specialize (Hcompl' p ts x Hrule Hm Hin).
    rewrite Heq' in Hcompl'. by apply elem_of_app in Hcompl' as [?|?].
  - intros Hx. apply Hsound' in Hx as (Hnot & p & ts & Hrule & Hm & Hin).
    rewrite <- Hperm in Hrule. specialize (Hcompl p ts x Hrule Hm Hin).
    rewrite Heq in Hcompl. by apply elem_of_app in Hcompl as [?|?].
Qed.

End TaskTags.

Lemma ranges_list_to_map {V : Type} (l : list (string * V)) :
  NoDup l.*1 -> ranges (list_to_map l) l.
Proof. intros Hnd. unfold ranges. symmetry. by apply map_to_list_to_map. Qed.

(** C8, as the code has it.  The rule table is a Go map, which has no order
    of its own: [buildRegisterTaskTags] applies the rules in the order in
    which the [range] loop happens to visit the table.  Whatever that order,
    the result is the starting tags followed, without repetition, by exactly
    the tags the starting tags lack among the tags of the rules whose
    pattern occurs in the lower-cased task name; every further visit only
    appends, so a tag keeps the position it got when first seen; and two
    visits of the same table give the same tags up to their order. *)
Theorem buildRegisterTaskTags_rules {ext : Externals}
    (taskName : string) (startingTags : list string)
    (table : gmap string (list string))
    (taskTag : list (string * list string)) :
  ranges table taskTag ->
  let result := buildRegisterTaskTags taskName startingTags taskTag in
  (exists added : list string,
     result = startingTags ++ added /\
     NoDup added /\
     forall x : string,
       x ∈ added <->
       (x ∉ startingTags) /\
       exists pattern taskTags,
         table !! pattern = Some taskTags /\
         strings_Contains (strings_ToLower taskName) pattern = true /\
         x ∈ taskTags) /\
  (forall visited rest : list (string * list string),
     taskTag = visited ++ rest ->
     buildRegisterTaskTags taskName startingTags visited `prefix_of` result) /\
  (forall taskTag' : list (string * list string),
     ranges table taskTag' ->
     buildRegisterTaskTags taskName startingTags taskTag' ≡ₚ result).
Proof.
  intros Hvisit result. unfold ranges in Hvisit. split; [|split].
  - destruct (buildRegisterTaskTags_spec taskName taskTag startingTags)
      as (added & Heq & Hnd & Hsound & Hcompl).
    exists added. split; [done|]. split; [done|]. intros x. split.
    + intros Hx. destruct (Hsound x Hx) as (Hnot & p & ts & Hrule & Hm & Hin).
      split; [done|]. exists p, ts. split; [|done].
      rewrite Hvisit in Hrule. by apply elem_of_map_to_list in Hrule.
    + intros (Hnot & p & ts & Hrule & Hm & Hin).
      apply elem_of_map_to_list in Hrule. rewrite <- Hvisit in Hrule.
      specialize (Hcompl p ts x Hrule Hm Hin). rewrite Heq in Hcompl.
      by apply elem_of_app in Hcompl as [?|?].
  - intros visited rest ->. apply buildRegisterTaskTags_prefix.
  - intros taskTag' Hvisit'. unfold ranges in Hvisit'.
    apply buildRegisterTaskTags_Permutation. by rewrite Hvisit, Hvisit'.
Qed.

Lemma buildRegisterTaskTags_rules_witness :
  buildRegisterTaskTags (ext := exExternals) "Web-API" ["blue"] exVisit2 ≡ₚ
  buildRegisterTaskTags (ext := exExternals) "Web-API" ["blue"] exVisit1.
Proof.
  apply (buildRegisterTaskTags_rules (ext := exExternals) "Web-API" ["blue"]
           exRules exVisit1).
  - apply ranges_list_to_map. compute_done.
  - replace exRules with (list_to_map exVisit2 : gmap string (list string))
      by (vm_compute; reflexivity).
    apply ranges_list_to_map. compute_done.
Defined.

(** The table [exRules] has two rules, and both match the task name
    Web-API.  Visited web first the result is frontend, rest; visited api
    first it is rest, frontend: the table does not fix the order of the
    result. *)
Lemma buildRegisterTaskTags_order_counterexample :
  ranges exRules exVisit1 /\
  ranges exRules exVisit2 /\
  buildRegisterTaskTags (ext := exExternals) "Web-API" [] exVisit1 =
  ["frontend"; "rest"] /\
  buildRegisterTaskTags (ext := exExternals) "Web-API" [] exVisit2 =
  ["rest"; "frontend"].
Proof.
  split; [|split; [|split; reflexivity]].
  - apply ranges_list_to_map. compute_done.
  - replace exRules with (list_to_map exVisit2 : gmap string (list string))
      by (vm_compute; reflexivity).
    apply ranges_list_to_map. compute_done.
Qed.

(** * Further properties *)

(** ** More on the task tags *)

(** X1. A second pass of [buildRegisterTaskTags] over rules of the first
    pass, in any order, adds nothing: the result of the first pass is
    returned as it is. *)
Theorem buildRegisterTaskTags_idempotent {ext : Externals}
    (taskName : string) (startingTags : list string)
    (taskTag taskTag' : list (string * list string)) :
  taskTag' ⊆ taskTag ->
  buildRegisterTaskTags taskName
    (buildRegisterTaskTags taskName startingTags taskTag) taskTag' =
  buildRegisterTaskTags taskName startingTags taskTag.
Proof.
  intros Hsub.
  destruct (buildRegisterTaskTags_spec taskName taskTag startingTags)
    as (_ & _ & _ & _ & Hcompl).
  destruct (buildRegisterTaskTags_spec taskName taskTag'
              (buildRegisterTaskTags taskName startingTags taskTag))
    as (added & -> & _ & Hsound & _).
  destruct added as [|x added]; [by rewrite app_nil_r|].
  destruct (Hsound x) as (Hnot & p & ts & Hrule & Hm & Hin);
    [apply list_elem_of_here|].
  destruct Hnot. apply (Hcompl p ts); [by apply Hsub|done|done].
Qed.

Lemma buildRegisterTaskTags_idempotent_witness :
  buildRegisterTaskTags (ext := exExternals) "Web-API"
    (buildRegisterTaskTags (ext := exExternals) "Web-API" ["blue"] exVisit1)
    exVisit2 =
  buildRegisterTaskTags (ext := exExternals) "Web-API" ["blue"] exVisit1.
Proof.
  apply (buildRegisterTaskTags_idempotent (ext := exExternals)).
  intros rule Hrule. apply list_elem_of_In in Hrule. apply list_elem_of_In.
  cbn in *. tauto.
Defined.

(** X2. [buildRegisterTaskTags] returns the starting tags unchanged exactly
    when they already hold every tag of every rule whose pattern occurs in
    the lower-cased task name; in particular for an empty table and for a
    task name no pattern occurs in. *)
Theorem buildRegisterTaskTags_unchanged_iff {ext : Externals}
    (taskName : string) (startingTags : list string)
    (taskTag : list (string * list string)) :
  buildRegisterTaskTags taskName startingTags taskTag = startingTags <->
  (forall pattern taskTags x,
     (pattern, taskTags) ∈ taskTag ->
     strings_Contains (strings_ToLower taskName) pattern = true ->
     x ∈ taskTags -> x ∈ startingTags).
Proof.
  destruct (buildRegisterTaskTags_spec taskName taskTag startingTags)
    as (added & Heq & _ & Hsound & Hcompl).
  split.
  - intros Hsame p ts x Hrule Hm Hin. rewrite <- Hsame. by apply (Hcompl p ts).
  - intros Hall. rewrite Heq.
    destruct added as [|x added]; [by rewrite app_nil_r|].
    destruct (Hsound x) as (Hnot & p & ts & Hrule & Hm & Hin);
      [apply list_elem_of_here|].
    destruct Hnot. by apply (Hall p ts).
Qed.

(** X3. [buildRegisterTaskTags] neither removes nor introduces a repeated
    tag: its result is free of duplicates exactly when the starting tags
    are. *)
Theorem buildRegisterTaskTags_NoDup {ext : Externals}
    (taskName : string) (startingTags : list string)
    (taskTag : list (string * list string)) :
  NoDup (buildRegisterTaskTags taskName startingTags taskTag) <->
  NoDup startingTags.
Proof.
  destruct (buildRegisterTaskTags_spec taskName taskTag startingTags)
    as (added & -> & Hnd & Hsound & _).
  rewrite NoDup_app. split; [by intros (? & _)|].
  intros Hstart. split; [done|]. split; [|done].
  intros x Hx Hadded. by apply Hsound in Hadded as [Hnot _].
Qed.

Lemma strings_Contains_empty (s : string) :
  strings_Contains s EmptyString = true.
Proof. by destruct s. Qed.

(** X4. A rule whose pattern is the empty string applies to every task:
    whatever the task name, all its tags are in the result. *)
Theorem buildRegisterTaskTags_empty_pattern {ext : Externals}
    (taskName : string) (startingTags : list string)
    (taskTag : list (string * list string)) (taskTags : list string)
    (x : string) :
  (EmptyString, taskTags) ∈ taskTag -> x ∈ taskTags ->
  x ∈ buildRegisterTaskTags taskName startingTags taskTag.
Proof.
  intros Hrule Hin.
  destruct (buildRegisterTaskTags_spec taskName taskTag startingTags)
    as (_ & _ & _ & _ & Hcompl).
  apply (Hcompl EmptyString taskTags); [done| |done].
  apply strings_Contains_empty.
Qed.

Lemma buildRegisterTaskTags_empty_pattern_witness :
  "all" ∈ buildRegisterTaskTags (ext := exExternals) "db" ["blue"]
            [("web", ["frontend"]); (EmptyString, ["all"])].
Proof.
  apply (buildRegisterTaskTags_empty_pattern (ext := exExternals) "db"
           ["blue"] _ ["all"]).
  - apply list_elem_of_further, list_elem_of_here.
  - apply list_elem_of_here.
Defined.

(** ** Strings *)

Lemma append_inv_head (a x y : string) : a +:+ x = a +:+ y -> x = y.
Proof.
  induction a as [|c a IH]; [done|].
  change (String c (a +:+ x) = String c (a +:+ y) -> x = y).
  intros [= Heq]. by apply IH.
Qed.

(** [strconv.Itoa] prints different numbers differently. *)
Lemma strconv_Itoa_inj (n n' : Z) : strconv_Itoa n = strconv_Itoa n' -> n = n'.
Proof.
  unfold strconv_Itoa. intros Heq. apply DecimalZ.to_int_inj.
  assert (forall z, Z.to_int z <> Decimal.Pos Decimal.Nil /\
                    Z.to_int z <> Decimal.Neg Decimal.Nil) as Hnonnil.
  { intros [|p|p]; cbn; split; try discriminate;
      intros [= Hnil]; by apply DecimalPos.Unsigned.to_uint_nonnil in Hnil. }
  destruct (Hnonnil n) as [Hn1 Hn2]. destruct (Hnonnil n') as [Hn1' Hn2'].
  apply (f_equal NilZero.int_of_string) in Heq.
  rewrite !NilZero.isi in Heq by done. by injection Heq.
Qed.

Lemma strings_Split_nonempty (s : string) (sep : ascii) :
  strings_Split s sep <> [].
Proof.
  destruct s as [|c s]; cbn; [done|].
  destruct (Ascii.eqb c sep); [done|]. by destruct (strings_Split s sep).
Qed.

(** Joining the fields of [strings.Split] with the separator gives the
    string back. *)
Lemma strings_Split_join (s : string) (sep : ascii) :
  String.concat (String sep EmptyString) (strings_Split s sep) = s.
Proof.
  induction s as [|c s IH]; [done|]. cbn [strings_Split].
  pose proof (strings_Split_nonempty s sep) as Hne.
  destruct (Ascii.eqb c sep) eqn:Hc.
  - apply Ascii.eqb_eq in Hc. subst c.
    destruct (strings_Split s sep) as [|w ws]; [done|].
    change (String sep (String.concat (String sep EmptyString) (w :: ws)) =
            String sep s).
    by rewrite IH.
  - destruct (strings_Split s sep) as [|w ws]; [done|].
    destruct ws as [|w' ws].
    + cbn in IH. cbn. by rewrite IH.
    + change (String c (String.concat (String sep EmptyString) (w :: w' :: ws))
              = String c s).
      by rewrite IH.
Qed.

(** No field of [strings.Split] holds the separator. *)
Lemma strings_Split_no_sep (s : string) (sep : ascii) :
  Forall (fun w => sep ∉ list_ascii_of_string w) (strings_Split s sep).
Proof.
  induction s as [|c s IH]; cbn [strings_Split].
  - constructor; [|constructor]. cbn. apply not_elem_of_nil.
  - destruct (Ascii.eqb c sep) eqn:Hc.
    + constructor; [|done]. cbn. apply not_elem_of_nil.
    + apply Ascii.eqb_neq in Hc.
      destruct (strings_Split s sep) as [|w ws].
      * constructor; [|constructor]. cbn.
        rewrite not_elem_of_cons. split; [congruence|apply not_elem_of_nil].
      * apply Forall_cons in IH as [Hw Hws]. constructor; [|done].
        cbn. rewrite not_elem_of_cons. split; [congruence|done].
Qed.

(** ** More on the entries of a task *)

Section TaskEntries.
Context {ext : Externals}.

Lemma portCalls_length (m : Mesos.t) (t : Task.t)
    (agent tname address : string) (tags : list string)
    (ports : list DiscoveryPort.t) :
  forall key : nat,
    length (concat (imap (fun k => portCalls m t agent tname address tags
                                     (key + k)) ports)) =
    (if Nat.eqb key 0 then match ports with [] => 0 | _ => 1 end else 0) +
    length (filter (fun p => DiscoveryPort.Name p <> EmptyString) ports).
Proof.
  induction ports as [|p ports IH]; intros key.
  - cbn. by destruct (Nat.eqb key 0).
  - rewrite imap_cons. cbn [concat]. rewrite length_app, Nat.add_0_r.
    rewrite (imap_ext _ (fun k => portCalls m t agent tname address tags
                                    (S key + k)));
      [|intros k q _; cbn; by rewrite Nat.add_succ_r].
    rewrite IH. cbn [Nat.eqb]. rewrite filter_cons.
    unfold portCalls. rewrite length_app.
    destruct (String.eqb (DiscoveryPort.Name p) EmptyString) eqn:Hname.
    + apply String.eqb_eq in Hname. rewrite decide_False by (by intros ?).
      cbn [negb length]. destruct (Nat.eqb key 0); cbn; lia.
    + apply String.eqb_neq in Hname. rewrite decide_True by done.
      cbn [negb length]. destruct (Nat.eqb key 0); cbn; lia.
Qed.

End TaskEntries.

(** X5. For an allowed task without the consul label whose discovery name
    is not empty, [registerTask] makes one [Register] call for the first
    port, if there is a port at all, and one more for every port with a
    name: nothing for a task without ports, and two calls for a first port
    that has a name. *)
Theorem registerTask_entry_count {ext : Externals} {R : Type} `{!Registry R}
    (m : Mesos.t) (taskTag : list (string * list string)) (t : Task.t)
    (agent : string) (r : R) :
  (forall l, l ∈ Task.Labels t -> Label.Key l <> "consul") ->
  Mesos.TaskPrivilege m (taskName m t) = true ->
  DiscoveryInfo.Name (Task.DiscoveryInfo t) <> EmptyString ->
  let ports :=
    Ports.DiscoveryPorts (DiscoveryInfo.Ports (Task.DiscoveryInfo t)) in
  length (callsOf (registerTaskOn m taskTag t agent) r) =
  match ports with [] => 0 | _ => 1 end +
  length (filter (fun p => DiscoveryPort.Name p <> EmptyString) ports).
Proof.
  intros Hno%lookupLabel_None Hallow Hname%String.eqb_neq ports.
  rewrite registerTask_calls. unfold Task.Label. rewrite Hno, Hallow, Hname.
  apply (portCalls_length m t agent _ _ _ ports 0).
Qed.

Lemma registerTask_entry_count_witness :
  length (callsOf (registerTaskOn (ext := exExternals) (exMesos "svc" [])
                     exTaskTag exTaskWeb "10.0.0.5")
                  (∅ : gmap string Service.t)) = 3.
Proof.
  apply (registerTask_entry_count (ext := exExternals) (exMesos "svc" [])
           exTaskTag exTaskWeb "10.0.0.5" ∅).
  - intros l Hl. revert Hl. cbn. rewrite list_elem_of_singleton. by intros ->.
  - reflexivity.
  - discriminate.
Defined.

(** X6. The entries [registerTask] builds for two named ports of one task
    have the same identifier exactly when the two ports have the same
    number: the port name is not part of the identifier. *)
Theorem namedService_identifier_inj {ext : Externals}
    (m : Mesos.t) (t : Task.t) (agent tname address : string)
    (tags : list string) (p q : DiscoveryPort.t) :
  Service.ID (namedService m t agent tname address tags p) =
  Service.ID (namedService m t agent tname address tags q) <->
  DiscoveryPort.Number p = DiscoveryPort.Number q.
Proof.
  cbn [Service.ID namedService]. split; [|by intros ->].
  intros Heq. do 8 apply append_inv_head in Heq. by apply strconv_Itoa_inj.
Qed.

(** X7. The tags of a discovery port are its tags label cut at the commas
    and at nothing else: a port without the label, or with an empty one,
    has no tags; otherwise there is at least one tag, no tag holds a comma,
    and the tags joined by commas are the label again, blanks included. *)
Theorem portTags_split (p : DiscoveryPort.t) :
  (DiscoveryPort.Label p "tags" = EmptyString -> portTags p = []) /\
  (DiscoveryPort.Label p "tags" <> EmptyString ->
   portTags p <> [] /\
   String.concat "," (portTags p) = DiscoveryPort.Label p "tags" /\
   Forall (fun w => comma ∉ list_ascii_of_string w) (portTags p)).
Proof.
  unfold portTags. split.
  - by intros ->.
  - intros Hne%String.eqb_neq. rewrite Hne. cbn [negb].
    split; [apply strings_Split_nonempty|].
    split; [apply strings_Split_join|apply strings_Split_no_sep].
Qed.

Lemma portTags_split_witness :
  String.concat "," (portTags exPortBlank) = "public, beta" /\
  portTags exPortBlank = ["public"; " beta"].
Proof.
  split; [|reflexivity].
  apply (proj2 (portTags_split exPortBlank)). discriminate.
Defined.

(** X8. When a task carries the tags label, its base tags start with the
    label cut at the commas, followed by what the rule table adds: there is
    at least one such tag, none holds a comma, and joined by commas they are
    the label again.  A tags label that is present and empty therefore gives
    one tag, the empty string, where a port with an empty tags label gets no
    tag. *)
Theorem baseTags_tags_label {ext : Externals}
    (m : Mesos.t) (taskTag : list (string * list string)) (t : Task.t)
    (l : string) :
  Task.Label t "tags" = Some l ->
  exists fields added : list string,
    baseTags m taskTag t = fields ++ added /\
    fields <> [] /\
    String.concat "," fields = l /\
    Forall (fun w => comma ∉ list_ascii_of_string w) fields /\
    (l = EmptyString -> fields = [EmptyString]).
Proof.
  intros Hl. unfold baseTags. rewrite Hl.
  destruct (buildRegisterTaskTags_spec (taskName m t) taskTag
              (strings_Split l comma)) as (added & -> & _).
  exists (strings_Split l comma), added. split; [done|].
  split; [apply strings_Split_nonempty|].
  split; [apply strings_Split_join|].
  split; [apply strings_Split_no_sep|by intros ->].
Qed.

Lemma baseTags_tags_label_witness :
  exists fields added : list string,
    baseTags (ext := exExternals) (exMesos "svc" []) exTaskTag
      exTaskEmptyTags = fields ++ added /\
    fields = [EmptyString].
Proof.
  destruct (baseTags_tags_label (ext := exExternals) (exMesos "svc" [])
              exTaskTag exTaskEmptyTags EmptyString eq_refl)
    as (fields & added & Heq & _ & _ & _ & Hempty).
  exists fields, added. split; [exact Heq|]. by apply Hempty.
Defined.

(** ** More on [RegisterHosts] *)

Section HostCalls.
Context {ext : Externals}.
Context {R : Type} `{!Registry R}.

(** The calls of a run of [registerHost] over a list of entries: one
    lookup per entry, in order, and registrations of some of the entries,
    in order. *)
Lemma foldl_registerHost_calls (es : list Service.t) :
  forall r : Traced R,
    exists rest : list Call,
      calls (foldl (fun r e => registerHost e r) r es) = calls r ++ rest /\
      lookupsOf rest = Service.ID <$> es /\
      registeredOf rest `sublist_of` es.
Proof.
  induction es as [|e es IH]; intros r.
  - exists []. cbn. by rewrite app_nil_r.
  - cbn [foldl].
    destruct (IH (registerHost e r)) as (rest & Heq & Hlook & Hreg).
    rewrite registerHost_calls in Heq.
    destruct ((CacheLookup (Service.ID e) (inner r)).1) as [h|].
    + destruct (sliceEq (Service.Tags e) (Service.Tags h)).
      * exists (CallCacheLookup (Service.ID e) ::
                CallCacheMark (Service.ID e) :: rest).
        split; [by rewrite Heq, <- app_assoc|].
        split; [cbn; by rewrite <- Hlook|].
        by apply sublist_cons.
      * exists (CallCacheLookup (Service.ID e) ::
                CallCacheDelete (Service.ID e) :: CallRegister e :: rest).
        split; [by rewrite Heq, <- app_assoc|].
        split; [cbn; by rewrite <- Hlook|].
        by apply sublist_skip.
    + exists (CallCacheLookup (Service.ID e) :: CallRegister e :: rest).
      split; [by rewrite Heq, <- app_assoc|].
      split; [cbn; by rewrite <- Hlook|].
      by apply sublist_skip.
Qed.

End HostCalls.

(** X9. [RegisterHosts] looks every host entry up in the cache exactly once,
    the workers in the order of the snapshot and then the control-plane
    nodes, and what it registers is some of these entries, each at most once
    per host and in the same order: it registers nothing else. *)
Theorem RegisterHosts_lookups {ext : Externals} {R : Type} `{!Registry R}
    (m : Mesos.t) (s : State.t) (r : R) :
  lookupsOf (callsOf (RegisterHostsOn m s) r) =
  Service.ID <$> hostEntries m s /\
  registeredOf (callsOf (RegisterHostsOn m s) r) `sublist_of` hostEntries m s.
Proof.
  unfold callsOf, RegisterHostsOn. rewrite RegisterHosts_unfold.
  cbn [snd]. fold (hostEntries m s).
  destruct (foldl_registerHost_calls (hostEntries m s) (fresh r))
    as (rest & -> & Hlook & Hreg).
  done.
Qed.

Section AgentsOrder.
Context {ext : Externals}.

Lemma foldl_insert_agents_other (slaves : list Slave.t) (id : string) :
  (forall f, f ∈ slaves -> Slave.ID f <> id) ->
  forall a : gmap string string,
    foldl (fun a f => <[Slave.ID f := agentAddress f]> a) a slaves !! id =
    a !! id.
Proof.
  induction slaves as [|f slaves IH]; intros Hother a; [done|].
  cbn [foldl]. rewrite IH.
  - apply lookup_insert_ne, Hother, list_elem_of_here.
  - intros f' Hf'. by apply Hother, list_elem_of_further.
Qed.

End AgentsOrder.

(** X10. When several workers of a snapshot report the same identifier, the
    agent-address map keeps the address of the last of them. *)
Theorem RegisterHosts_agents_last_wins
    {ext : Externals} {R : Type} `{!Registry R}
    (m : Mesos.t) (s : State.t) (r : R)
    (before after : list Slave.t) (f : Slave.t) :
  State.Slaves s = before ++ f :: after ->
  (forall f', f' ∈ after -> Slave.ID f' <> Slave.ID f) ->
  Mesos.Agents (RegisterHosts m s r).1 !! Slave.ID f =
  Some (toIP (PID.Host (Slave.PID f))).
Proof.
  intros Hslaves Hlast. rewrite RegisterHosts_unfold.
  cbn [fst Mesos.Agents Mesos.setAgents]. rewrite Hslaves.
  unfold agentsOf. rewrite foldl_app. cbn [foldl].
  rewrite foldl_insert_agents_other by done. apply lookup_insert_eq.
Qed.

Lemma RegisterHosts_agents_last_wins_witness :
  Mesos.Agents
    (RegisterHosts (ext := exExternals) (exMesos "mesos-consul" [])
       exStateDup (∅ : gmap string Service.t)).1 !! "agent-1" =
  Some "10.0.0.9".
Proof.
  apply (RegisterHosts_agents_last_wins (ext := exExternals)
           (exMesos "mesos-consul" []) exStateDup ∅
           [exSlave "agent-1" "node1" "10.0.0.5" "5051"]
           [exSlave "agent-2" "node2" "10.0.0.6" "5051"]
           (exSlave "agent-1" "node9" "10.0.0.9" "5051")).
  - reflexivity.
  - intros f' Hf'. apply list_elem_of_singleton in Hf'. by subst f'.
Defined.

(** ** Repeated tags on host entries *)

(** A role without a dot, a dot and a suffix determine the role and the
    suffix. *)
Lemma dotted_inj (t1 t2 x y : string) :
  dotFree t1 -> dotFree t2 ->
  t1 +:+ "." +:+ x = t2 +:+ "." +:+ y -> t1 = t2 /\ x = y.
Proof.
  unfold dotFree. revert t2.
  induction t1 as [|c1 t1 IH]; intros [|c2 t2] H1 H2 Heq.
  - change (String "." x = String "." y) in Heq. by injection Heq as ->.
  - change (String "." x = String c2 (t2 +:+ "." +:+ y)) in Heq.
    injection Heq as <- _. destruct H2. cbn. apply list_elem_of_here.
  - change (String c1 (t1 +:+ "." +:+ x) = String "." y) in Heq.
    injection Heq as -> _. destruct H1. cbn. apply list_elem_of_here.
  - change (String c1 (t1 +:+ "." +:+ x) = String c2 (t2 +:+ "." +:+ y))
      in Heq.
    injection Heq as -> Heq. cbn in H1, H2.
    apply not_elem_of_cons in H1 as [_ H1].
    apply not_elem_of_cons in H2 as [_ H2].
    by destruct (IH t2 H1 H2 Heq) as [-> ->].
Qed.

(** For roles without dots and without repetition, the tags of [agentTags]
    repeat exactly when the configured suffixes do. *)
Lemma agentTags_NoDup (m : Mesos.t) (ts : list string) :
  ts <> [] -> Forall dotFree ts -> NoDup ts ->
  NoDup (agentTags m ts) <-> NoDup (Mesos.ServiceTags m).
Proof.
  intros Hne Hdot Hts.
  destruct (Mesos.ServiceTags m) as [|tag0 tags0] eqn:Htags.
  { unfold agentTags. rewrite Htags. cbn. split; [constructor|done]. }
  rewrite agentTags_suffixes by (rewrite Htags; done).
  rewrite Htags. clear Htags. generalize (tag0 :: tags0). clear tag0 tags0.
  intros l.
  assert (forall tag x,
            x ∈ map (fun t => t +:+ "." +:+ tag) ts <->
            exists t, t ∈ ts /\ x = t +:+ "." +:+ tag) as Hmap.
  { intros tag x. rewrite list_elem_of_In, in_map_iff. split.
    - intros (t & <- & Ht). exists t. by rewrite list_elem_of_In.
    - intros (t & Ht & ->). exists t. by rewrite <- list_elem_of_In. }
  assert (forall tag (l' : list string) x,
            x ∈ map (fun t => t +:+ "." +:+ tag) ts ->
            x ∈ flat_map (fun tag => map (fun t => t +:+ "." +:+ tag) ts) l' ->
            tag ∈ l') as Hmeet.
  { intros tag l' x (t & Ht & ->)%Hmap Hx.
    apply list_elem_of_In, in_flat_map in Hx as (tag' & Htag' & Hx).
    apply list_elem_of_In, Hmap in Hx as (t' & Ht' & Heq).
    apply list_elem_of_In in Htag'.
    rewrite Forall_forall in Hdot.
    destruct (dotted_inj t t' tag tag') as [_ ->]; auto. }
  induction l as [|tag l IH]; cbn [flat_map].
  { split; constructor. }
  rewrite NoDup_app, NoDup_cons, IH. split.
  - intros (_ & Hdisj & Hl). split; [|done].
    intros Htag. destruct ts as [|t ts']; [done|].
    apply (Hdisj (t +:+ "." +:+ tag)).
    + apply Hmap. exists t. split; [apply list_elem_of_here|done].
    + apply list_elem_of_In, in_flat_map. exists tag.
      split; [by apply list_elem_of_In|].
      apply list_elem_of_In, Hmap. exists t.
      split; [apply list_elem_of_here|done].
  - intros (Htag & Hl). split; [|split; [|done]].
    + change (NoDup ((fun t => t +:+ "." +:+ tag) <$> ts)).
      apply NoDup_fmap_2_strong; [|done].
      intros t1 t2 Ht1 Ht2 Heq. rewrite Forall_forall in Hdot.
      destruct (dotted_inj t1 t2 tag tag) as [-> _]; auto.
    + intros x Hx Hx'. apply Htag. by apply (Hmeet tag l x).
Qed.

(** X11. The tags [RegisterHosts] gives to a worker entry and to a
    control-plane entry repeat a tag exactly when the configured suffixes
    repeat one: with suffixes free of duplicates, and without suffixes,
    every host entry reaches the tag comparison of [registerHost] with tags
    free of duplicates. *)
Theorem host_tags_NoDup {ext : Externals} (m : Mesos.t) :
  (forall f : Slave.t,
     NoDup (Service.Tags (slaveService m f)) <-> NoDup (Mesos.ServiceTags m)) /\
  (forall ma : MesosHost.t,
     NoDup (Service.Tags (masterService m ma)) <->
     NoDup (Mesos.ServiceTags m)).
Proof.
  assert (forall ts : list string,
            ts <> [] -> Forall dotFree ts -> NoDup ts ->
            NoDup (agentTags m ts) <-> NoDup (Mesos.ServiceTags m)) as Hroles
    by apply agentTags_NoDup.
  split.
  - intros f. cbn [Service.Tags slaveService].
    apply Hroles; [done| |compute_done].
    repeat constructor; unfold dotFree; compute_done.
  - intros ma. cbn [Service.Tags masterService].
    destruct (MesosHost.IsLeader ma).
    + apply Hroles; [done| |compute_done].
      repeat constructor; unfold dotFree; compute_done.
    + apply Hroles; [done| |compute_done].
      repeat constructor; unfold dotFree; compute_done.
Qed.

(** ** The helpers of the test file *)

(** Goals on remainders by 2, by the equations of the division. *)
Ltac mod2_lia :=
  repeat match goal with
  | H : context [?n mod 2] |- _ =>
      pose proof (Nat.div_mod_eq n 2);
      pose proof (Nat.mod_upper_bound n 2 ltac:(lia));
      generalize dependent (n mod 2); generalize dependent (n / 2); intros
  | |- context [?n mod 2] =>
      pose proof (Nat.div_mod_eq n 2);
      pose proof (Nat.mod_upper_bound n 2 ltac:(lia));
      generalize dependent (n mod 2); generalize dependent (n / 2); intros
  end; lia.

(** The loop of [labels] ends, with the labels of the pairs from [i] on
    appended, when an even number of strings is left and the fuel covers
    them. *)
Lemma labelsLoop_spec (kvs : list string) :
  forall (fuel i : nat) (ls : list Label.t),
    (length kvs - i) mod 2 = 0 ->
    length kvs - i < 2 * fuel ->
    labelsLoop fuel i kvs ls = Some (ls ++ labelPairs (drop i kvs)).
Proof.
  induction fuel as [|fuel IH]; intros i ls Heven Hfuel; [lia|].
  cbn [labelsLoop]. destruct (i <? length kvs)%nat eqn:Hi.
  - apply Nat.ltb_lt in Hi.
    assert (i + 1 < length kvs) as Hi' by mod2_lia.
    destruct (lookup_lt_is_Some_2 kvs i Hi) as [k Hk].
    destruct (lookup_lt_is_Some_2 kvs (i + 1) Hi') as [v Hv].
    rewrite Hk, Hv, IH by mod2_lia.
    rewrite (drop_S kvs k i Hk).
    rewrite Nat.add_1_r in Hv. rewrite (drop_S kvs v (S i) Hv).
    cbn [labelPairs]. replace (i + 2) with (S (S i)) by lia.
    by rewrite <- app_assoc.
  - apply Nat.ltb_ge in Hi. rewrite drop_ge by done. cbn.
    by rewrite app_nil_r.
Qed.

Lemma labelPairs_lookup (j : nat) :
  forall (kvs : list string) (k v : string),
    kvs !! (2 * j) = Some k -> kvs !! (2 * j + 1) = Some v ->
    labelPairs kvs !! j = Some {| Label.Key := k; Label.Value := v |}.
Proof.
  induction j as [|j IH]; intros kvs k v.
  - destruct kvs as [|k0 [|v0 kvs]]; cbn; try done.
    by intros [= ->] [= ->].
  - replace (2 * S j) with (S (S (2 * j))) by lia.
    destruct kvs as [|k0 [|v0 kvs]]; [done|done|].
    cbn [labelPairs]. cbn [lookup list_lookup Nat.add]. apply IH.
Qed.

Lemma labelPairs_length (n : nat) :
  forall kvs : list string,
    length kvs <= n -> length kvs mod 2 = 0 ->
    length kvs = 2 * length (labelPairs kvs).
Proof.
  induction n as [|n IH]; intros kvs Hn Heven.
  - destruct kvs; [done|cbn in Hn; lia].
  - destruct kvs as [|k [|v kvs]]; [done|done|].
    cbn [length labelPairs] in *.
    assert (length kvs = 2 * length (labelPairs kvs)) as Hrest
      by (apply IH; [lia|mod2_lia]).
    lia.
Qed.

(** X12. [labels] panics on an odd number of strings.  On an even number it
    gives an option that never panics and changes nothing of a task but its
    labels, to which it appends one label for every two strings, the label
    at place [j] having the string at [2j] as key and the string at [2j+1]
    as value. *)
Theorem labels_pairs (kvs : list string) :
  (length kvs mod 2 <> 0 -> labels kvs = None) /\
  (length kvs mod 2 = 0 ->
   exists opt : taskOpt,
     labels kvs = Some opt /\
     forall t : Task.t,
     exists pairs : list Label.t,
       opt t = Some (setLabels (Task.Labels t ++ pairs) t) /\
       length kvs = 2 * length pairs /\
       forall j k v,
         kvs !! (2 * j) = Some k -> kvs !! (2 * j + 1) = Some v ->
         pairs !! j = Some {| Label.Key := k; Label.Value := v |}).
Proof.
  unfold labels. split.
  - intros Hodd%Nat.eqb_neq. by rewrite Hodd.
  - intros Heven. rewrite Heven. cbn [Nat.eqb negb].
    eexists. split; [reflexivity|]. intros t. exists (labelPairs kvs).
    rewrite labelsLoop_spec by (rewrite ?Nat.sub_0_r; first [done|lia]).
    rewrite drop_0. split; [done|].
    split; [by apply (labelPairs_length (length kvs))|].
    intros j. apply labelPairs_lookup.
Qed.

Lemma labels_pairs_witness :
  exists opt : taskOpt,
    labels ["consul"; "1"; "tags"; "a,b"] = Some opt /\
    exists pairs : list Label.t,
      opt zeroTask = Some (setLabels (Task.Labels zeroTask ++ pairs) zeroTask) /\
      pairs !! 1 = Some {| Label.Key := "tags"; Label.Value := "a,b" |}.
Proof.
  destruct (proj2 (labels_pairs ["consul"; "1"; "tags"; "a,b"]) eq_refl)
    as (opt & Hopt & Hpairs).
  exists opt. split; [exact Hopt|].
  destruct (Hpairs zeroTask) as (pairs & Heq & _ & Hlookup).
  exists pairs. split; [exact Heq|]. by apply Hlookup.
Defined.

(** X13. [TestRegisterTask] passes: it ends without a panic and without a
    call of [Errorf], for every value of the receiver, every registry client
    and every order of visit of the rule table.  None of them is reached:
    the label consul of the test's task stops [registerTask] first. *)
Theorem TestRegisterTask_passes {ext : Externals} {R : Type} `{!Registry R}
    (m : Mesos.t) (taskTag : list (string * list string)) (r : R) :
  TestRegisterTask m taskTag r = Some [].
Proof. reflexivity. Qed.

(** ** No host is skipped *)

Section HostCover.
Context {ext : Externals}.
Context {R : Type} `{!Registry R}.

Lemma registerHost_settles (e : Service.t) (r : Traced R) :
  CallCacheMark (Service.ID e) ∈ calls (registerHost e r) \/
  CallRegister e ∈ calls (registerHost e r).
Proof.
  rewrite registerHost_calls.
  destruct ((CacheLookup (Service.ID e) (inner r)).1) as [h|].
  - destruct (sliceEq (Service.Tags e) (Service.Tags h)).
    + left. rewrite elem_of_app. right.
      apply list_elem_of_further, list_elem_of_here.
    + right. rewrite elem_of_app. right.
      do 2 apply list_elem_of_further. apply list_elem_of_here.
  - right. rewrite elem_of_app. right.
    apply list_elem_of_further, list_elem_of_here.
Qed.

Lemma foldl_registerHost_settles (es : list Service.t) :
  forall (r : Traced R) (e : Service.t),
    e ∈ es ->
    CallCacheMark (Service.ID e) ∈
      calls (foldl (fun r e => registerHost e r) r es) \/
    CallRegister e ∈ calls (foldl (fun r e => registerHost e r) r es).
Proof.
  induction es as [|e0 es IH]; intros r e He.
  - by apply elem_of_nil in He.
  - cbn [foldl]. apply elem_of_cons in He as [->|He]; [|by apply IH].
    destruct (foldl_registerHost_calls es (registerHost e0 r))
      as (rest & -> & _).
    destruct (registerHost_settles e0 r) as [Hmark|Hreg].
    + left. apply elem_of_app. by left.
    + right. apply elem_of_app. by left.
Qed.

End HostCover.

(** X14. [RegisterHosts] skips no host: for every worker of the snapshot
    and every control-plane node, the entry is either confirmed in the
    cache, by [CacheMark] on its identifier, or registered, by [Register]
    on the entry itself. *)
Theorem RegisterHosts_settles_every_host
    {ext : Externals} {R : Type} `{!Registry R}
    (m : Mesos.t) (s : State.t) (r : R) (e : Service.t) :
  e ∈ hostEntries m s ->
  CallCacheMark (Service.ID e) ∈ callsOf (RegisterHostsOn m s) r \/
  CallRegister e ∈ callsOf (RegisterHostsOn m s) r.
Proof.
  intros He. unfold callsOf, RegisterHostsOn. rewrite RegisterHosts_unfold.
  cbn [snd]. fold (hostEntries m s). by apply foldl_registerHost_settles.
Qed.

Lemma RegisterHosts_settles_every_host_witness :
  CallCacheMark (Service.ID exHost) ∈
    callsOf (RegisterHostsOn (ext := exExternals) (exMesos "mesos-consul" [])
               exState) (exCache ["follower"; "agent"]) \/
  CallRegister exHost ∈
    callsOf (RegisterHostsOn (ext := exExternals) (exMesos "mesos-consul" [])
               exState) (exCache ["follower"; "agent"]).
Proof.
  apply (RegisterHosts_settles_every_host (ext := exExternals)
           (exMesos "mesos-consul" []) exState
           (exCache ["follower"; "agent"]) exHost).
  apply list_elem_of_here.
Defined.
